(** * A shallow embedding of [server.c]

    The server is a single C file.  This development embeds its request
    parser, its response builder, its GET dispatcher and the argument
    checks of [main], and states the properties of the specification
    over them.

    Conventions of the embedding.
    - A [char] is an [ascii]; memory that a [char *] designates is the list
      of the bytes found from the pointer on.  A C string is read from such
      memory up to (excluding) the first NUL: [c_str].  Reading past the end
      of the list reads NUL.
    - [size_t] and [long] are 64 bits, [int] is 32 bits, [unsigned short]
      is 16 bits and a pointer is 8 bytes (LP64); they are integers of [Z]
      with the wrap-around written where the C code has one.
    - A pointer that may be NULL is an [option].  Writing through a NULL
      pointer is a fault, the [Fault] outcome of [result].
    - [malloc] and [strdup] are taken to succeed, and [fread] to read in
      full the file that [fopen] has opened. *)

From Stdlib Require Import String Ascii Bool ZArith NArith Lia List.
Import ListNotations.

Local Open Scope Z_scope.

(** ** Bytes and C strings *)

Definition bytes := list ascii.

Definition NUL : ascii := Ascii.zero.

(** A string literal of the source, without its terminator. *)
Definition lit (s : string) : bytes := list_ascii_of_string s.

(** The value of a [char] as an [unsigned char]. *)
Definition code (c : ascii) : Z := Z.of_N (N_of_ascii c).

Definition is_nul (c : ascii) : bool := Ascii.eqb c NUL.

(** The C string found in [m]: the bytes before the first NUL. *)
Fixpoint c_str (m : bytes) : bytes :=
  match m with
  | [] => []
  | c :: m' => if is_nul c then [] else c :: c_str m'
  end.

Definition nul_free (s : bytes) : Prop := Forall (fun c => c <> NUL) s.

Definition nul_freeb (s : bytes) : bool := forallb (fun c => negb (is_nul c)) s.

(** [char a[n] = "s"]: the literal, then NUL up to the size of the array. *)
Definition char_array (n : nat) (s : bytes) : bytes :=
  firstn n (s ++ repeat NUL n).

(** [memset(a, 0, n)] on an array of [n] bytes. *)
Definition zeroed (n : nat) : bytes := repeat NUL n.

Definition CR : ascii := ascii_of_nat 13.
Definition LF : ascii := ascii_of_nat 10.
Definition CRLF : bytes := [CR; LF].

(** ** The functions of the C library that the server calls *)

Module Libc.

(** [strncpy(dest, src, n)]: exactly [n] bytes of [dest] are written, the
    bytes of the string [src] first and NUL after them; the rest of [dest]
    is kept. *)
Definition strncpy (dest src : bytes) (n : nat) : bytes :=
  firstn n (c_str src ++ repeat NUL n) ++ skipn n dest.

(** [strncmp(a, b, n)]: the difference of the first bytes that differ among
    the first [n], 0 when there is none before a NUL or before [n]. *)
Fixpoint strncmp (a b : bytes) (n : nat) : Z :=
  match n with
  | O => 0
  | S n' =>
      let ca := hd NUL a in
      let cb := hd NUL b in
      if Ascii.eqb ca cb
      then if is_nul ca then 0 else strncmp (tl a) (tl b) n'
      else code ca - code cb
  end.

(** [s] starts with [p]. *)
Fixpoint starts_with (p s : bytes) : bool :=
  match p, s with
  | [], _ => true
  | _ :: _, [] => false
  | a :: p', b :: s' => Ascii.eqb a b && starts_with p' s'
  end.

(** [strstr] on a string already cut at its NUL: the suffix that starts at
    the first occurrence of [needle], NULL ([None]) when there is none. *)
Fixpoint find_sub (needle hay : bytes) : option bytes :=
  if starts_with needle hay then Some hay
  else match hay with
       | [] => None
       | _ :: hay' => find_sub needle hay'
       end.

Definition strstr (hay needle : bytes) : option bytes :=
  find_sub needle (c_str hay).

Definition is_delim (delim : bytes) (c : ascii) : bool :=
  existsb (Ascii.eqb c) delim.

Fixpoint skip_delims (delim s : bytes) : bytes :=
  match s with
  | [] => []
  | c :: s' => if is_delim delim c then skip_delims delim s' else s
  end.

(** The token at the head of [s] and what follows the delimiter that ends
    it (that delimiter is overwritten with NUL and stepped over). *)
Fixpoint split_token (delim s : bytes) : bytes * bytes :=
  match s with
  | [] => ([], [])
  | c :: s' =>
      if is_delim delim c then ([], s')
      else let '(tok, rest) := split_token delim s' in (c :: tok, rest)
  end.

(** One call of [strtok] on the string [s] (the string given, or the one
    saved by the previous call): the token, NULL when only delimiters are
    left, and the string saved for the next call. *)
Definition strtok (s delim : bytes) : option bytes * bytes :=
  match skip_delims delim s with
  | [] => (None, [])
  | t => let '(tok, rest) := split_token delim t in (Some tok, rest)
  end.

(** [isspace] in the C locale. *)
Definition isspace (c : ascii) : bool :=
  (code c =? 32) || ((9 <=? code c) && (code c <=? 13)).

Definition isdigit (c : ascii) : bool :=
  (48 <=? code c) && (code c <=? 57).

Definition digit_val (c : ascii) : Z := code c - 48.

Definition digit_char (d : Z) : ascii := ascii_of_N (Z.to_N (48 + d)).

Fixpoint skip_space (s : bytes) : bytes :=
  match s with
  | [] => []
  | c :: s' => if isspace c then skip_space s' else s
  end.

(** The value of the decimal digits at the head of [s], from [acc]. *)
Fixpoint read_digits (s : bytes) (acc : Z) : Z :=
  match s with
  | [] => acc
  | c :: s' => if isdigit c then read_digits s' (acc * 10 + digit_val c) else acc
  end.

(** An optional sign, then at least one digit: the sign and the magnitude,
    [None] when no digit is there (a matching failure). *)
Definition read_signed (s : bytes) : option (bool * Z) :=
  let '(neg, s1) :=
    match s with
    | c :: s' =>
        if Ascii.eqb c "-"%char then (true, s')
        else if Ascii.eqb c "+"%char then (false, s')
        else (false, s)
    | [] => (false, s)
    end in
  match s1 with
  | c :: _ => if isdigit c then Some (neg, read_digits s1 0) else None
  | [] => None
  end.

Definition SIZE_MAX : Z := 2 ^ 64 - 1.
Definition INT_MAX : Z := 2 ^ 31 - 1.
Definition INT_MIN : Z := - 2 ^ 31.
Definition LONG_MAX : Z := 2 ^ 63 - 1.
Definition LONG_MIN : Z := - 2 ^ 63.

(** The conversion [%zu] of [scanf] at [s]: white space is skipped, the
    number is read as [strtoul] reads it (a magnitude above [SIZE_MAX] gives
    [SIZE_MAX] whatever the sign; below, a minus sign negates modulo
    2^64). *)
Definition scan_zu (s : bytes) : option Z :=
  match read_signed (skip_space s) with
  | None => None
  | Some (neg, v) =>
      Some (if v <=? SIZE_MAX
            then (if neg then (- v) mod 2 ^ 64 else v)
            else SIZE_MAX)
  end.

(** [sscanf(s, "Content-Length: %zu", &x)]: the literal [Content-Length:]
    has to match, the blank of the format matches any white space, then
    [%zu].  The result is the new value of [x], [old] when nothing was
    assigned. *)
Definition sscanf_content_length (s : bytes) (old : Z) : Z :=
  let key := lit "Content-Length:" in
  if starts_with key (c_str s)
  then match scan_zu (skipn (length key) (c_str s)) with
       | Some v => v
       | None => old
       end
  else old.

(** [atoi]: [strtol] in base 10 (white space, sign, digits; out-of-range
    values clamp to [LONG_MIN] and [LONG_MAX]; 0 when no digit is there),
    converted to [int]. *)
Definition wrap_int (z : Z) : Z := (z + 2 ^ 31) mod 2 ^ 32 - 2 ^ 31.

Definition atoi (s : bytes) : Z :=
  match read_signed (skip_space (c_str s)) with
  | None => 0
  | Some (neg, v) =>
      let l := if neg then Z.max LONG_MIN (- v) else Z.min LONG_MAX v in
      wrap_int l
  end.

(** Decimal digits of [n], most significant first, at most [fuel] of them
    (20 are enough below 2^64), in front of [acc]. *)
Fixpoint dec_digits (fuel : nat) (n : Z) (acc : bytes) : bytes :=
  match fuel with
  | O => acc
  | S f =>
      let acc' := digit_char (n mod 10) :: acc in
      if n <? 10 then acc' else dec_digits f (n / 10) acc'
  end.

(** [%zu] of [printf], for a [size_t]. *)
Definition print_zu (n : Z) : bytes := dec_digits 20 (n mod 2 ^ 64) [].

(** [%d] of [printf], for an [int]. *)
Definition print_d (n : Z) : bytes :=
  let i := wrap_int n in
  if i <? 0 then "-"%char :: dec_digits 10 (- i) [] else dec_digits 10 i [].

End Libc.

(** ** Outcomes *)

(** What a call does: it returns a value, or it faults on a write through
    (or a read of) a NULL pointer. *)
Inductive result (A : Type) : Type :=
| Ok (a : A)
| Fault.

Arguments Ok {A} a.
Arguments Fault {A}.

Definition bind {A B : Type} (r : result A) (k : A -> result B) : result B :=
  match r with
  | Ok a => k a
  | Fault => Fault
  end.

Notation "x <- r ;; k" := (bind r (fun x => k))
  (at level 61, r at next level, right associativity).

(** [strncpy(p, src, n)] where [p] is a pointer. *)
Definition strncpy_at (p : option bytes) (src : bytes) (n : nat)
  : result (option bytes) :=
  match p with
  | None => Fault
  | Some dest => Ok (Some (Libc.strncpy dest src n))
  end.

(** [p[i] = c] where [p] is a pointer. *)
Definition store_at (p : option bytes) (i : nat) (c : ascii)
  : result (option bytes) :=
  match p with
  | None => Fault
  | Some m =>
      if (i <? length m)%nat
      then Ok (Some (firstn i m ++ c :: skipn (S i) m))
      else Fault
  end.

(** ** The data of the server *)

Definition MAX_METHOD_SIZE : nat := 10.
Definition MAX_PATH_SIZE : nat := 100.
Definition MAX_BODY_SIZE : nat := 4096.
Definition MAX_STATUS_MESSAGE_SIZE : nat := 50.

(** [sizeof] of a pointer to [char]. *)
Definition sizeof_ptr : Z := 8.

(** [HttpRequest].  [method] and [path] are the arrays [char method[10]]
    and [char path[100]], byte for byte; [body] is the pointer [char *body]. *)
Record HttpRequest : Type := mkRequest {
  method : bytes;
  path : bytes;
  body : option bytes;
  body_size : Z
}.

(** [HttpResponse].  [status_message] is the C string that the array
    [char status_message[50]] holds; [content] is the memory that the
    pointer [char *content] designates, terminator included. *)
Record HttpResponse : Type := mkResponse {
  status_code : Z;
  status_message : bytes;
  content_length : Z;
  content : bytes
}.

(** [RouteMapping]; the callback is NULL in every entry and never read. *)
Record RouteMapping : Type := mkRoute {
  rpath : bytes;
  rlink : bytes
}.

Definition getRouteMappings : list RouteMapping :=
  [ mkRoute (char_array MAX_PATH_SIZE (lit "/"))
            (char_array MAX_PATH_SIZE (lit "./public_html/index.html"));
    mkRoute (char_array MAX_PATH_SIZE (lit "/test"))
            (char_array MAX_PATH_SIZE (lit "./public_html/test.html")) ].

(** ** The request parser *)

(** [memset(http, 0, sizeof(HttpRequest))]. *)
Definition request_zero : HttpRequest :=
  mkRequest (zeroed MAX_METHOD_SIZE) (zeroed MAX_PATH_SIZE) None 0.

(** The two calls [strtok(request_copy, " ")] and [strtok(NULL, " ")]. *)
Definition request_tokens (request : bytes) : option bytes * option bytes :=
  let '(m, saved) := Libc.strtok (c_str request) (lit " ") in
  let '(p, _) := Libc.strtok saved (lit " ") in
  (m, p).

(** The part of [parseHttpRequest] under [if (start)] of the
    [Content-Length:] search: the header value, then the body. *)
Definition parse_body (request start : bytes) (http : HttpRequest)
  : result HttpRequest :=
  let size := Libc.sscanf_content_length start (body_size http) in
  let http := mkRequest (method http) (path http) (body http) size in
  match Libc.strstr request (CRLF ++ CRLF) with
  | None => Ok http
  | Some start =>
      let start := skipn 4 start in
      let available_space := (sizeof_ptr - 1) mod 2 ^ 64 in
      let copy_size :=
        if body_size http <? available_space
        then body_size http else available_space in
      b <- strncpy_at (body http) start (Z.to_nat copy_size) ;;
      b <- store_at b (Z.to_nat copy_size) NUL ;;
      Ok (mkRequest (method http) (path http) b (body_size http))
  end.

(** [parseHttpRequest]; the argument is [None] for a NULL pointer, the
    result is [Ok None] when NULL is returned. *)
Definition parseHttpRequest (request : option bytes)
  : result (option HttpRequest) :=
  match request with
  | None => Ok None
  | Some request =>
      let http := request_zero in
      match request_tokens request with
      | (Some m, Some p) =>
          let http :=
            mkRequest (Libc.strncpy (method http) m (MAX_METHOD_SIZE - 1))
                      (path http) (body http) (body_size http) in
          let http :=
            mkRequest (method http)
                      (Libc.strncpy (path http) p (MAX_PATH_SIZE - 1))
                      (body http) (body_size http) in
          match Libc.strstr request (lit "Content-Length:") with
          | Some start =>
              http <- parse_body request start http ;;
              Ok (Some http)
          | None => Ok (Some http)
          end
      | _ => Ok (Some http)
      end
  end.

(** ** The response builder *)

Definition response_format (r : HttpResponse) : bytes :=
  lit "HTTP/1.1 " ++ Libc.print_d (status_code r) ++ lit " "
  ++ c_str (status_message r) ++ CRLF
  ++ lit "Content-Type: text/html;charset=UTF-8" ++ CRLF
  ++ lit "Content-Length: " ++ Libc.print_zu (content_length r) ++ CRLF
  ++ CRLF
  ++ c_str (content r).

(** [HttpResponseToString]: the string and the length stored in [*size];
    [None] for NULL, which is returned when [snprintf] reports a length
    that an [int] cannot hold, and when the size [total_length + 1] of the
    allocation is more than an [int] holds. *)
Definition HttpResponseToString (r : HttpResponse) : option (bytes * Z) :=
  let out := response_format r in
  let total_length := Z.of_nat (length out) in
  if total_length + 1 <=? Libc.INT_MAX then Some (out, total_length)
  else None.

(** ** What is done to the outside *)

(** What the handlers do to the outside: the bytes given to [send], and
    the lines written to the standard streams. *)
Inductive event : Type :=
| Send (data : bytes)
| Stdout (text : bytes)
| Stderr (text : bytes).

(** ** The file loader *)

(** The files that [fopen] opens, by name, each with its contents. *)
Definition filesystem := bytes -> option bytes.

(** [ReadFile]: the buffer (the file, then a NUL) and the value of [*size]
    after the call, which is written on success only. *)
Definition ReadFile (fs : filesystem) (filename : bytes) (size : Z)
  : option bytes * Z :=
  match fs (c_str filename) with
  | None => (None, size)
  | Some file =>
      let file_size := Z.of_nat (length file) in
      (Some (file ++ [NUL]), file_size)
  end.

(** What [ReadFile] writes to the error stream: a line when the file
    cannot be opened. *)
Definition ReadFile_stderr (fs : filesystem) (filename : bytes) : list event :=
  match fs (c_str filename) with
  | None => [Stderr (lit "Error opening file: " ++ c_str filename ++ [LF])]
  | Some _ => []
  end.

(** ** The dispatcher *)

(** The output of [printStringWithEscapeChars]. *)
Definition printStringWithEscapeChars (str : bytes) : bytes :=
  flat_map (fun c =>
              (if Ascii.eqb c LF then lit "\n" else [])
              ++ (if Ascii.eqb c CR then lit "\r" else [c]))
           (c_str str)
  ++ [LF].

(** The loop of [handleGetRequest] over the entries of the table from the
    current one on: the response after the loop. *)
Fixpoint route_scan (fs : filesystem) (routes : list RouteMapping)
    (request : HttpRequest) (response : HttpResponse) (size : Z)
  : HttpResponse :=
  match routes with
  | [] => response
  | route :: routes' =>
      if Libc.strncmp (path request) (rpath route) MAX_PATH_SIZE =? 0
      then
        let response :=
          mkResponse 200 (lit "OK")
                     (content_length response) (content response) in
        match ReadFile fs (rlink route) size with
        | (Some file_content, size) =>
            mkResponse (status_code response) (status_message response)
                       size file_content
        | (None, _) =>
            mkResponse 500 (lit "Internal Server Error")
                       (content_length response) (content response)
        end
      else route_scan fs routes' request response size
  end.

(** [handleGetRequest] up to the end of its loop: the response that is
    about to be serialized. *)
Definition get_response (fs : filesystem) (request : HttpRequest)
  : HttpResponse :=
  let size := 0 in
  let response := mkResponse 404 (lit "Not Found") size [NUL] in
  route_scan fs getRouteMappings request response size.

(** What the loop of [handleGetRequest] writes to the error stream: what
    the call of [ReadFile] writes, at the first entry that matches. *)
Fixpoint route_scan_log (fs : filesystem) (routes : list RouteMapping)
    (request : HttpRequest) : list event :=
  match routes with
  | [] => []
  | route :: routes' =>
      if Libc.strncmp (path request) (rpath route) MAX_PATH_SIZE =? 0
      then ReadFile_stderr fs (rlink route)
      else route_scan_log fs routes' request
  end.

Definition get_log (fs : filesystem) (request : HttpRequest) : list event :=
  route_scan_log fs getRouteMappings request.

(** [handleGetRequest].  [send] is taken to accept the bytes.  When the
    response builder returns NULL the function reads through it and
    faults. *)
Definition handleGetRequest (fs : filesystem) (request : HttpRequest)
  : result (list event) :=
  let response := get_response fs request in
  let log := get_log fs request in
  match HttpResponseToString response with
  | None => Fault
  | Some (response_message, size) =>
      Ok (log
          ++ [ Send (firstn (Z.to_nat size) response_message);
               Stdout (lit "Response Sent: " ++ [LF]);
               Stdout (printStringWithEscapeChars response_message) ])
  end.

(** [handleHttpRequest]; a NULL request is read through. *)
Definition handleHttpRequest (fs : filesystem) (request : option HttpRequest)
  : result (list event) :=
  match request with
  | None => Fault
  | Some request =>
      if Libc.strncmp (method request) (lit "GET") 3 =? 0
      then handleGetRequest fs request
      else Ok [ Stderr (lit "Unsupported HTTP method: "
                        ++ c_str (method request) ++ [LF]) ]
  end.

(** The bytes that a run gives to [send], in order. *)
Definition sent (r : result (list event)) : list bytes :=
  match r with
  | Ok evs =>
      flat_map (fun e => match e with Send d => [d] | _ => [] end) evs
  | Fault => []
  end.

(** What one connection does with the buffer it has received:
    [parseHttpRequest], then [handleHttpRequest]. *)
Definition serve (fs : filesystem) (buffer : bytes) : result (list event) :=
  http <- parseHttpRequest (Some buffer) ;;
  handleHttpRequest fs http.

(** ** The command line *)

Module Cli.

(** [inet_pton(AF_INET, src, dst)] as the C library implements it: four
    decimal numbers of at most 255, without a leading zero, separated by
    single dots.  The state is the numbers completed, the number being read,
    whether a digit of it was seen, and the count of numbers started. *)
Fixpoint inet_pton4 (src : bytes) (done : list Z) (cur : Z)
    (saw_digit : bool) (octets : nat) : option (list Z) :=
  match src with
  | [] => if (octets <? 4)%nat then None else Some (done ++ [cur])
  | ch :: src' =>
      if Libc.isdigit ch then
        let new := cur * 10 + Libc.digit_val ch in
        if saw_digit && (cur =? 0) then None
        else if 255 <? new then None
        else if saw_digit then inet_pton4 src' done new true octets
        else if (4 <? S octets)%nat then None
        else inet_pton4 src' done new true (S octets)
      else if Ascii.eqb ch "."%char && saw_digit then
        if (octets =? 4)%nat then None
        else inet_pton4 src' (done ++ [cur]) 0 false octets
      else None
  end.

(** The four bytes of the address, [None] when the call does not return 1. *)
Definition inet_pton (src : bytes) : option (list Z) :=
  inet_pton4 (c_str src) [] 0 false 0.

(** [htons] on a little-endian machine. *)
Definition htons (p : Z) : Z := (p mod 256) * 256 + (p / 256) mod 256.

(** Whether [socket], [bind] and [listen] succeed. *)
Record sockets : Type := mkSockets {
  socket_ok : bool;
  bind_ok : bool;
  listen_ok : bool
}.

(** [startHttpServer]: -1 when the listening socket cannot be set up;
    otherwise the accept loop runs and the call does not return ([None]). *)
Definition startHttpServer (env : sockets) (addr : list Z) (port : Z)
  : option Z :=
  if negb (socket_ok env) then Some (-1)
  else if negb (bind_ok env) then Some (-1)
  else if negb (listen_ok env) then Some (-1)
  else None.

Definition EXIT_FAILURE : Z := 1.
Definition EXIT_SUCCESS : Z := 0.

(** [main]: the exit status, [None] when the process keeps serving. *)
Definition main (env : sockets) (argv : list bytes) : option Z :=
  let argc := Z.of_nat (length argv) in
  if negb (argc =? 3) then Some EXIT_FAILURE
  else
    let ipAddressStr := nth 1 argv [] in
    let portStr := nth 2 argv [] in
    match inet_pton ipAddressStr with
    | None => Some EXIT_FAILURE
    | Some addr =>
        let port := Libc.atoi portStr mod 2 ^ 16 in
        if (port <=? 0) || (65534 <? port) then Some EXIT_FAILURE
        else
          match startHttpServer env addr (htons port) with
          | None => None
          | Some result =>
              if result =? -1 then Some EXIT_FAILURE else Some EXIT_SUCCESS
          end
    end.

End Cli.

(** ** Searching a string *)

(** No byte of [s] is [k]. *)
Definition avoids (k : ascii) (s : bytes) : Prop := Forall (fun c => c <> k) s.

Definition avoidsb (k : ascii) (s : bytes) : bool :=
  forallb (fun c => negb (Ascii.eqb c k)) s.

(** ** Reading a serialized response back *)

(** The value of the [Content-Length] field of [out], found and read the
    way the request parser finds and reads it. *)
Definition reparsed_content_length (out : bytes) : option Z :=
  match Libc.strstr out (lit "Content-Length:") with
  | None => None
  | Some start => Some (Libc.sscanf_content_length start 0)
  end.

(** What follows the first blank line of [out]. *)
Definition content_portion (out : bytes) : option bytes :=
  match Libc.strstr out (CRLF ++ CRLF) with
  | None => None
  | Some start => Some (skipn 4 start)
  end.

(** The round trip: the field that is read back is the length of what
    follows the blank line. *)
Definition round_trip (r : HttpResponse) : bool :=
  match content_portion (response_format r),
        reparsed_content_length (response_format r) with
  | Some portion, Some n => n =? Z.of_nat (length portion)
  | _, _ => false
  end.

(** [content_length] is the number of the bytes of [content], its
    terminator apart. *)
Definition response_invariant (r : HttpResponse) : Prop :=
  exists payload,
    content r = payload ++ [NUL] /\
    content_length r = Z.of_nat (length payload).

(** A status message that leaves the header as the builder means it: no
    blank line before the end of the status line, and no [Content-Length:]
    in the message. *)
Definition plain_status (msg : bytes) : Prop :=
  Libc.find_sub (CRLF ++ CRLF) (msg ++ CRLF) = None /\
  Libc.find_sub (lit "Content-Length:") msg = None.

(** ** Data for concrete runs *)

Definition index_html : bytes := lit "<h1>hi</h1>".

(** A file system that holds the index page and nothing else. *)
Definition demo_fs : filesystem := fun name =>
  if list_eq_dec ascii_dec name (lit "./public_html/index.html")
  then Some index_html else None.

Definition index_route : RouteMapping :=
  mkRoute (char_array MAX_PATH_SIZE (lit "/"))
          (char_array MAX_PATH_SIZE (lit "./public_html/index.html")).

Definition test_route : RouteMapping :=
  mkRoute (char_array MAX_PATH_SIZE (lit "/test"))
          (char_array MAX_PATH_SIZE (lit "./public_html/test.html")).

Definition request_of (m p : bytes) : HttpRequest :=
  mkRequest (char_array MAX_METHOD_SIZE m) (char_array MAX_PATH_SIZE p) None 0.

Definition raw_get : bytes :=
  lit "GET / HTTP/1.1" ++ CRLF ++ lit "Host: x" ++ CRLF ++ CRLF.

Definition raw_getx : bytes := lit "GETX / HTTP/1.1" ++ CRLF ++ CRLF.

Definition raw_post : bytes :=
  lit "POST / HTTP/1.1" ++ CRLF ++ lit "Content-Length: 5" ++ CRLF ++ CRLF
  ++ lit "hello".

Definition raw_malformed : bytes :=
  lit "POST / HTTP/1.1" ++ CRLF ++ lit "Content-Length: abc" ++ CRLF ++ CRLF
  ++ lit "hello".

Definition long_path_x : bytes := lit "/" ++ repeat "a"%char 98 ++ lit "x".
Definition long_path_yz : bytes := lit "/" ++ repeat "a"%char 98 ++ lit "yz".

Definition raw_long (p : bytes) : bytes :=
  lit "GETTING-MORE " ++ p ++ lit " HTTP/1.1" ++ CRLF ++ CRLF.

Definition all_sockets_ok : Cli.sockets := Cli.mkSockets true true true.

(** The three responses at which the round trip fails although
    [content_length] is the number of the bytes of the content: a content
    with a NUL byte, a status message with a blank line, a status message
    with a [Content-Length:]. *)
Definition response_with_nul : HttpResponse :=
  mkResponse 200 (lit "OK") 3 (["a"%char; NUL; "b"%char] ++ [NUL]).

(** A file system whose index page holds a NUL byte. *)
Definition binary_fs : filesystem := fun name =>
  if list_eq_dec ascii_dec name (lit "./public_html/index.html")
  then Some ["a"%char; NUL; "b"%char] else None.

(** A file system whose index page is so long that the response 200 for
    it is exactly [INT_MAX] bytes long. *)
Definition long_file : bytes := repeat "a"%char (Z.to_nat 2147483561).

Definition long_fs : filesystem := fun name =>
  if list_eq_dec ascii_dec name (lit "./public_html/index.html")
  then Some long_file else None.



(** ** The accept loop *)

(** What the network gives to one turn of the loop of [startHttpServer]:
    [accept] fails, [recv] fails (each with the text of [strerror(errno)]),
    or [recv] stores the bytes [data], as many as the buffer takes.
    [beyond] is what memory holds after the buffer: it is read only when
    the data fill the buffer and hold no NUL byte. *)
Inductive connection : Type :=
| AcceptError (why : bytes)
| RecvError (why : bytes)
| Received (data beyond : bytes).

Definition BUFFER_SIZE : nat := Z.to_nat 30000.

(** [char buffer[30000] = {0}] after [recv] has stored [data] in it. *)
Definition recv_buffer (data : bytes) : bytes := char_array BUFFER_SIZE data.

(** What the loop does to the outside: what the handlers do, and the
    closing of the client socket. *)
Inductive server_event : Type :=
| Ev (e : event)
| Close.

(** How a run of the loop over finitely many connections ends: blocked in
    [accept], or stopped by a fault. *)
Inductive loop_end : Type :=
| Blocked
| Crashed.

Definition waiting_banner : bytes :=
  [LF] ++ lit "---------Waiting for new connection---------" ++ [LF; LF].

(** The loop of [startHttpServer] over the connections [conns].  The
    events of a call that faults are not recorded. *)
Fixpoint accept_loop (fs : filesystem) (conns : list connection)
  : list server_event * loop_end :=
  match conns with
  | [] => ([Ev (Stdout waiting_banner)], Blocked)
  | c :: conns' =>
      match c with
      | AcceptError why =>
          let '(evs, e) := accept_loop fs conns' in
          (Ev (Stdout waiting_banner)
           :: Ev (Stderr (lit "Error accepting client connection: "
                          ++ c_str why ++ [LF]))
           :: evs, e)
      | RecvError why =>
          let '(evs, e) := accept_loop fs conns' in
          (Ev (Stdout waiting_banner)
           :: Ev (Stdout (lit "Connection Established" ++ [LF]))
           :: Ev (Stderr (lit "Error receiving data: " ++ c_str why ++ [LF]))
           :: Close
           :: evs, e)
      | Received data beyond =>
          let buffer := recv_buffer data ++ beyond in
          let head :=
            [ Ev (Stdout waiting_banner);
              Ev (Stdout (lit "Connection Established" ++ [LF]));
              Ev (Stdout (lit "Received Data:" ++ [LF]));
              Ev (Stdout (printStringWithEscapeChars buffer)) ] in
          match serve fs buffer with
          | Fault => (head, Crashed)
          | Ok evs' =>
              let '(evs, e) := accept_loop fs conns' in
              (head ++ map Ev evs' ++ Close :: evs, e)
          end
      end
  end.

(** The bytes that a run of the loop gives to [send], in order. *)
Definition loop_sent (evs : list server_event) : list bytes :=
  flat_map (fun e => match e with Ev (Send d) => [d] | _ => [] end) evs.

(** The number of times a run of the loop closes a client socket. *)
Definition loop_closes (evs : list server_event) : nat :=
  length (filter (fun e => match e with Close => true | _ => false end) evs).

(** A connection after which the loop goes on: the handlers do not fault
    on what they read. *)
Definition harmless (fs : filesystem) (c : connection) : bool :=
  match c with
  | Received data beyond =>
      match serve fs (recv_buffer data ++ beyond) with
      | Ok _ => true
      | Fault => false
      end
  | _ => true
  end.

(** What one connection has sent to it. *)
Definition answer (fs : filesystem) (c : connection) : list bytes :=
  match c with
  | Received data beyond => sent (serve fs (recv_buffer data ++ beyond))
  | _ => []
  end.

(** A connection that [accept] has returned. *)
Definition accepted (c : connection) : bool :=
  match c with
  | AcceptError _ => false
  | _ => true
  end.

Definition SP : ascii := " "%char.

(** The two responses without content, as they are sent. *)
Definition not_found_message : bytes :=
  lit "HTTP/1.1 404 Not Found" ++ CRLF
  ++ lit "Content-Type: text/html;charset=UTF-8" ++ CRLF
  ++ lit "Content-Length: 0" ++ CRLF ++ CRLF.

Definition server_error_message : bytes :=
  lit "HTTP/1.1 500 Internal Server Error" ++ CRLF
  ++ lit "Content-Type: text/html;charset=UTF-8" ++ CRLF
  ++ lit "Content-Length: 0" ++ CRLF ++ CRLF.

(** The response 200 for the file [file], as it is sent. *)
Definition ok_message (file : bytes) : bytes :=
  lit "HTTP/1.1 200 OK" ++ CRLF
  ++ lit "Content-Type: text/html;charset=UTF-8" ++ CRLF
  ++ lit "Content-Length: " ++ Libc.print_zu (Z.of_nat (length file)) ++ CRLF
  ++ CRLF ++ c_str (file ++ [NUL]).

(** What a handler does when it sends [message]. *)
Definition sending (message : bytes) : list event :=
  [ Send message;
    Stdout (lit "Response Sent: " ++ [LF]);
    Stdout (printStringWithEscapeChars message) ].

(** The decimal numeral of [n], for [n] below 10^19. *)
Definition decimal (n : Z) : bytes := Libc.dec_digits 19 n [].

(** * Properties *)

(** ** C strings *)

Lemma is_nul_true (c : ascii) : is_nul c = true <-> c = NUL.
Proof. unfold is_nul. apply Ascii.eqb_eq. Qed.

Lemma is_nul_false (c : ascii) : is_nul c = false <-> c <> NUL.
Proof. unfold is_nul. apply Ascii.eqb_neq. Qed.

Lemma c_str_nul_free (m : bytes) : nul_free (c_str m).
Proof.
  induction m as [|c m IH]; simpl.
  - constructor.
  - destruct (is_nul c) eqn:E.
    + constructor.
    + constructor; [now apply is_nul_false | exact IH].
Qed.

Lemma c_str_id (s : bytes) : nul_free s -> c_str s = s.
Proof.
  induction 1 as [|c s Hc _ IH]; simpl; [reflexivity|].
  apply is_nul_false in Hc. now rewrite Hc, IH.
Qed.

Lemma c_str_idem (m : bytes) : c_str (c_str m) = c_str m.
Proof. apply c_str_id, c_str_nul_free. Qed.

Lemma c_str_app_nul (s rest : bytes) :
  nul_free s -> c_str (s ++ NUL :: rest) = s.
Proof.
  induction 1 as [|c s Hc _ IH]; simpl; [reflexivity|].
  apply is_nul_false in Hc. now rewrite Hc, IH.
Qed.

Lemma c_str_length (m : bytes) : (length (c_str m) <= length m)%nat.
Proof.
  induction m as [|c m IH]; simpl; [lia|].
  destruct (is_nul c); simpl; lia.
Qed.

Lemma nul_free_app (s t : bytes) :
  nul_free (s ++ t) <-> nul_free s /\ nul_free t.
Proof. apply Forall_app. Qed.

Lemma Forall_firstn {A : Type} (P : A -> Prop) (n : nat) (l : list A) :
  Forall P l -> Forall P (firstn n l).
Proof.
  intros H. revert n. induction H as [|a l Ha _ IH]; intros [|n]; simpl;
    constructor; auto.
Qed.

Lemma nul_free_firstn (n : nat) (s : bytes) : nul_free s -> nul_free (firstn n s).
Proof. apply Forall_firstn. Qed.

Lemma nul_freeb_spec (s : bytes) : nul_freeb s = true <-> nul_free s.
Proof.
  unfold nul_freeb, nul_free. rewrite forallb_forall, Forall_forall.
  split; intros H c Hc; specialize (H c Hc).
  - apply is_nul_false. now destruct (is_nul c).
  - apply is_nul_false in H. now rewrite H.
Qed.

(** A C string that fits an array with room for its terminator is read
    back from the array. *)
Lemma c_str_char_array (n : nat) (s : bytes) :
  nul_free s -> (length s < n)%nat -> c_str (char_array n s) = s.
Proof.
  intros Hs Hlen. unfold char_array.
  rewrite firstn_app, firstn_all2 by lia.
  destruct n as [|n]; [lia|].
  replace (S n - length s)%nat with (S (n - length s)) by lia.
  simpl repeat. rewrite firstn_cons. apply c_str_app_nul, Hs.
Qed.

(** ** [strncmp] *)

Lemma code_inj (c1 c2 : ascii) : code c1 = code c2 -> c1 = c2.
Proof.
  unfold code. intros H. apply N2Z.inj in H.
  rewrite <- (ascii_N_embedding c1), <- (ascii_N_embedding c2).
  now rewrite H.
Qed.

Lemma c_str_hd_tl (m : bytes) :
  c_str m = if is_nul (hd NUL m) then [] else hd NUL m :: c_str (tl m).
Proof. destruct m as [|c m]; reflexivity. Qed.

(** [strncmp] returns 0 exactly when the two strings agree on their first
    [n] bytes. *)
Lemma strncmp_zero_iff (n : nat) : forall a b : bytes,
  Libc.strncmp a b n = 0 <-> firstn n (c_str a) = firstn n (c_str b).
Proof.
  induction n as [|n IH]; intros a b; simpl; [tauto|].
  rewrite (c_str_hd_tl a), (c_str_hd_tl b).
  destruct (Ascii.eqb_spec (hd NUL a) (hd NUL b)) as [E|E].
  - rewrite <- E. destruct (is_nul (hd NUL a)); [tauto|].
    simpl. rewrite IH. split; [congruence|].
    intros H; now injection H.
  - split.
    + intros H. exfalso. apply E, code_inj. lia.
    + destruct (is_nul (hd NUL a)) eqn:Ea, (is_nul (hd NUL b)) eqn:Eb;
        try discriminate.
      * apply is_nul_true in Ea, Eb. congruence.
      * simpl. intros H. injection H as H _. contradiction.
Qed.

Lemma firstn_eq_short {A : Type} (n : nat) (x y : list A) :
  (length y < n)%nat -> firstn n x = y -> x = y.
Proof.
  intros Hy H.
  destruct (Nat.le_gt_cases (length x) n) as [Hx|Hx].
  - now rewrite firstn_all2 in H.
  - apply (f_equal (@length A)) in H. rewrite length_firstn in H. lia.
Qed.

(** Against a string shorter than [n], [strncmp] is the equality of the
    strings. *)
Lemma strncmp_zero_short (n : nat) (a b : bytes) :
  (length (c_str b) < n)%nat ->
  Libc.strncmp a b n = 0 <-> c_str a = c_str b.
Proof.
  intros Hb. rewrite strncmp_zero_iff. split.
  - intros H. apply (firstn_eq_short n); [exact Hb|].
    now rewrite H, firstn_all2 by lia.
  - now intros ->.
Qed.

(** ** The route table *)

Lemma route_scan_no_match (fs : filesystem) (request : HttpRequest)
    (response : HttpResponse) (size : Z) (routes : list RouteMapping) :
  (forall r, In r routes ->
             Libc.strncmp (path request) (rpath r) MAX_PATH_SIZE <> 0) ->
  route_scan fs routes request response size = response.
Proof.
  induction routes as [|r routes IH]; intros H; cbn [route_scan];
    [reflexivity|].
  destruct (Z.eqb_spec (Libc.strncmp (path request) (rpath r) MAX_PATH_SIZE) 0)
    as [E|E].
  - exfalso. apply (H r); [now left | exact E].
  - apply IH. intros r' Hr'. apply H. now right.
Qed.

(** The first entry that matches decides the response. *)
Lemma route_scan_first_match (fs : filesystem) (request : HttpRequest)
    (response : HttpResponse) (size : Z)
    (before : list RouteMapping) (route : RouteMapping)
    (after : list RouteMapping) :
  (forall r, In r before ->
             Libc.strncmp (path request) (rpath r) MAX_PATH_SIZE <> 0) ->
  Libc.strncmp (path request) (rpath route) MAX_PATH_SIZE = 0 ->
  route_scan fs (before ++ route :: after) request response size =
  match ReadFile fs (rlink route) size with
  | (Some file_content, size) => mkResponse 200 (lit "OK") size file_content
  | (None, _) =>
      mkResponse 500 (lit "Internal Server Error")
                 (content_length response) (content response)
  end.
Proof.
  intros Hbefore Hroute.
  induction before as [|r before IH]; cbn [route_scan app].
  - rewrite Hroute. cbn [Z.eqb status_code status_message content_length content].
    now destruct (ReadFile fs (rlink route) size) as [[c|] sz].
  - destruct (Z.eqb_spec (Libc.strncmp (path request) (rpath r) MAX_PATH_SIZE) 0)
      as [E|E].
    + exfalso. apply (Hbefore r); [now left | exact E].
    + apply IH. intros r' Hr'. apply Hbefore. now right.
Qed.

Lemma route_path_short (route : RouteMapping) :
  In route getRouteMappings -> (length (c_str (rpath route)) < MAX_PATH_SIZE)%nat.
Proof.
  intros [<-|[<-|[]]]; vm_compute; lia.
Qed.

(** On the configured table a route matches exactly when its path is the
    path of the request. *)
Lemma route_match_iff (request : HttpRequest) (route : RouteMapping) :
  In route getRouteMappings ->
  Libc.strncmp (path request) (rpath route) MAX_PATH_SIZE = 0
  <-> c_str (path request) = c_str (rpath route).
Proof.
  intros Hin. apply strncmp_zero_short, route_path_short, Hin.
Qed.

(** Every entry of the configured table is the first one with its path. *)
Lemma route_split (route : RouteMapping) :
  In route getRouteMappings ->
  exists before after,
    getRouteMappings = before ++ route :: after /\
    forall r, In r before -> c_str (rpath r) <> c_str (rpath route).
Proof.
  intros [<-|[<-|[]]].
  - exists [], (skipn 1 getRouteMappings). split; [reflexivity|].
    intros r [].
  - exists (firstn 1 getRouteMappings), []. split; [reflexivity|].
    intros r [<-|[]]. vm_compute. discriminate.
Qed.

Lemma get_response_match (fs : filesystem) (request : HttpRequest)
    (route : RouteMapping) :
  In route getRouteMappings ->
  c_str (path request) = c_str (rpath route) ->
  get_response fs request =
  match fs (c_str (rlink route)) with
  | Some file =>
      mkResponse 200 (lit "OK") (Z.of_nat (length file)) (file ++ [NUL])
  | None => mkResponse 500 (lit "Internal Server Error") 0 [NUL]
  end.
Proof.
  intros Hin Hpath.
  destruct (route_split route Hin) as (before & after & Htable & Hbefore).
  unfold get_response. rewrite Htable.
  rewrite route_scan_first_match.
  - unfold ReadFile. now destruct (fs (c_str (rlink route))).
  - intros r Hr E.
    assert (Hin' : In r getRouteMappings).
    { rewrite Htable. apply in_or_app. now left. }
    apply (route_match_iff request r Hin') in E.
    apply (Hbefore r Hr). congruence.
  - now apply route_match_iff.
Qed.

Lemma route_scan_log_no_match (fs : filesystem) (request : HttpRequest)
    (routes : list RouteMapping) :
  (forall r, In r routes ->
             Libc.strncmp (path request) (rpath r) MAX_PATH_SIZE <> 0) ->
  route_scan_log fs routes request = [].
Proof.
  induction routes as [|r routes IH]; intros H; cbn [route_scan_log];
    [reflexivity|].
  destruct (Z.eqb_spec (Libc.strncmp (path request) (rpath r) MAX_PATH_SIZE) 0)
    as [E|E].
  - exfalso. apply (H r); [now left | exact E].
  - apply IH. intros r' Hr'. apply H. now right.
Qed.

Lemma route_scan_log_first_match (fs : filesystem) (request : HttpRequest)
    (before : list RouteMapping) (route : RouteMapping)
    (after : list RouteMapping) :
  (forall r, In r before ->
             Libc.strncmp (path request) (rpath r) MAX_PATH_SIZE <> 0) ->
  Libc.strncmp (path request) (rpath route) MAX_PATH_SIZE = 0 ->
  route_scan_log fs (before ++ route :: after) request
  = ReadFile_stderr fs (rlink route).
Proof.
  intros Hbefore Hroute.
  induction before as [|r before IH]; cbn [route_scan_log app].
  - now rewrite Hroute.
  - destruct (Z.eqb_spec (Libc.strncmp (path request) (rpath r) MAX_PATH_SIZE) 0)
      as [E|E].
    + exfalso. apply (Hbefore r); [now left | exact E].
    + apply IH. intros r' Hr'. apply Hbefore. now right.
Qed.

(** What the dispatcher writes to the error stream: the line of
    [ReadFile] when the file of the entry that matches cannot be opened. *)
Lemma get_log_match (fs : filesystem) (request : HttpRequest)
    (route : RouteMapping) :
  In route getRouteMappings ->
  c_str (path request) = c_str (rpath route) ->
  get_log fs request = ReadFile_stderr fs (rlink route).
Proof.
  intros Hin Hpath.
  destruct (route_split route Hin) as (before & after & Htable & Hbefore).
  unfold get_log. rewrite Htable.
  apply route_scan_log_first_match.
  - intros r Hr E.
    assert (Hin' : In r getRouteMappings).
    { rewrite Htable. apply in_or_app. now left. }
    apply (route_match_iff request r Hin') in E.
    apply (Hbefore r Hr). congruence.
  - now apply route_match_iff.
Qed.

Lemma get_log_no_match (fs : filesystem) (request : HttpRequest) :
  (forall route, In route getRouteMappings ->
                 c_str (path request) <> c_str (rpath route)) ->
  get_log fs request = [].
Proof.
  intros Hno. unfold get_log. apply route_scan_log_no_match.
  intros r Hr E. apply (Hno r Hr). now apply route_match_iff.
Qed.

(** The response that is built for a routed file: for a request whose
    path is the path of an entry of the configured route table, when the
    file of that entry can be read, the dispatcher builds the response 200
    [OK] whose content is the file, byte for byte (followed by the
    terminator of the buffer), and whose [content_length] is the size of
    the file. *)
Theorem get_response_ok (fs : filesystem) (request : HttpRequest)
    (route : RouteMapping) (file : bytes) :
  In route getRouteMappings ->
  c_str (path request) = c_str (rpath route) ->
  fs (c_str (rlink route)) = Some file ->
  let response := get_response fs request in
  status_code response = 200 /\
  status_message response = lit "OK" /\
  content_length response = Z.of_nat (length file) /\
  content response = file ++ [NUL] /\
  firstn (Z.to_nat (content_length response)) (content response) = file.
Proof.
  intros Hin Hpath Hfile response. subst response.
  rewrite (get_response_match fs request route Hin Hpath), Hfile. simpl.
  repeat split.
  rewrite Nat2Z.id, firstn_app, firstn_all, Nat.sub_diag. simpl.
  apply app_nil_r.
Qed.

(** C2: for a request whose path is the path of no entry of the configured
    route table, the dispatcher builds the response 404 [Not Found] with
    an empty content and [content_length] 0. *)
Theorem get_response_not_found (fs : filesystem) (request : HttpRequest) :
  (forall route, In route getRouteMappings ->
                 c_str (path request) <> c_str (rpath route)) ->
  let response := get_response fs request in
  status_code response = 404 /\
  status_message response = lit "Not Found" /\
  c_str (content response) = [] /\
  content_length response = 0.
Proof.
  intros Hno response. subst response. unfold get_response.
  rewrite route_scan_no_match.
  - repeat split.
  - intros r Hr E. apply (Hno r Hr). now apply route_match_iff.
Qed.

(** C3: for a request whose path is the path of an entry of the configured
    route table, when the file of that entry cannot be loaded, the
    dispatcher builds the response 500 [Internal Server Error] with an
    empty content and [content_length] 0. *)
Theorem get_response_load_failure (fs : filesystem) (request : HttpRequest)
    (route : RouteMapping) :
  In route getRouteMappings ->
  c_str (path request) = c_str (rpath route) ->
  fs (c_str (rlink route)) = None ->
  let response := get_response fs request in
  status_code response = 500 /\
  status_message response = lit "Internal Server Error" /\
  c_str (content response) = [] /\
  content_length response = 0.
Proof.
  intros Hin Hpath Hfile response. subst response.
  rewrite (get_response_match fs request route Hin Hpath), Hfile.
  repeat split.
Qed.

(** ** The parser *)

Lemma firstn_repeat {A : Type} (x : A) (k n : nat) :
  firstn k (repeat x n) = repeat x (min k n).
Proof.
  revert n. induction k as [|k IH]; intros [|n]; simpl; try reflexivity.
  now rewrite IH.
Qed.

Lemma skipn_repeat {A : Type} (x : A) (k n : nat) :
  skipn k (repeat x n) = repeat x (n - k).
Proof.
  revert n. induction k as [|k IH]; intros [|n]; simpl; try reflexivity.
  apply IH.
Qed.

(** [strncpy] of at most [n] bytes into a zeroed array of [n + 1] bytes
    leaves the array that holds the string cut at [n] bytes. *)
Lemma strncpy_zeroed (n : nat) (src : bytes) :
  nul_free src ->
  Libc.strncpy (zeroed (S n)) src n = char_array (S n) (firstn n src).
Proof.
  intros Hsrc. unfold Libc.strncpy, char_array, zeroed.
  rewrite (c_str_id src Hsrc), !firstn_app, !firstn_repeat, skipn_repeat.
  rewrite firstn_firstn, length_firstn.
  replace (min (S n) n) with n by lia.
  rewrite <- app_assoc, <- repeat_app. do 2 f_equal. lia.
Qed.

Lemma skip_delims_nul_free (delim s : bytes) :
  nul_free s -> nul_free (Libc.skip_delims delim s).
Proof.
  induction 1 as [|c s Hc Hs IH]; simpl; [constructor|].
  destruct (Libc.is_delim delim c); [exact IH | now constructor].
Qed.

Lemma split_token_nul_free (delim s : bytes) :
  nul_free s ->
  nul_free (fst (Libc.split_token delim s)) /\
  nul_free (snd (Libc.split_token delim s)).
Proof.
  induction 1 as [|c s Hc Hs IH]; simpl.
  - split; constructor.
  - destruct (Libc.is_delim delim c).
    + split; [constructor | exact Hs].
    + destruct (Libc.split_token delim s) as [tok rest]. simpl in *.
      split; [constructor; tauto | tauto].
Qed.

Lemma strtok_nul_free (delim s : bytes) :
  nul_free s ->
  (forall tok, fst (Libc.strtok s delim) = Some tok -> nul_free tok) /\
  nul_free (snd (Libc.strtok s delim)).
Proof.
  intros Hs. unfold Libc.strtok.
  pose proof (skip_delims_nul_free delim s Hs) as Ht.
  destruct (Libc.skip_delims delim s) as [|c t] eqn:E.
  - simpl. split; [discriminate | constructor].
  - destruct (split_token_nul_free delim (c :: t) Ht) as [H1 H2].
    destruct (Libc.split_token delim (c :: t)) as [tok rest]. simpl in *.
    split; [|exact H2]. intros tok' [= <-]. exact H1.
Qed.

(** The tokens are parts of the request string: they hold no NUL. *)
Lemma request_tokens_nul_free (request m p : bytes) :
  request_tokens request = (Some m, Some p) -> nul_free m /\ nul_free p.
Proof.
  unfold request_tokens.
  destruct (strtok_nul_free (lit " ") (c_str request) (c_str_nul_free request))
    as [Hm Hsaved].
  destruct (Libc.strtok (c_str request) (lit " ")) as [m' saved].
  cbn [fst snd] in *.
  destruct (strtok_nul_free (lit " ") saved Hsaved) as [Hp _].
  destruct (Libc.strtok saved (lit " ")) as [p' saved'].
  cbn [fst snd] in *.
  intros [= -> ->]. split; auto.
Qed.

(** A present input never gives NULL. *)
Lemma parseHttpRequest_not_null (request : bytes) :
  parseHttpRequest (Some request) <> Ok None.
Proof.
  unfold parseHttpRequest.
  destruct (request_tokens request) as [[m|] [p|]]; try discriminate.
  destruct (Libc.strstr request (lit "Content-Length:")) as [start|];
    [|discriminate].
  destruct (parse_body _ _ _); discriminate.
Qed.

(** With the body pointer NULL, as [memset] leaves it, the copy of the
    body faults as soon as the blank line is found. *)
Lemma parse_body_fault (request start sep : bytes) (http : HttpRequest) :
  body http = None ->
  Libc.strstr request (CRLF ++ CRLF) = Some sep ->
  parse_body request start http = Fault.
Proof.
  intros Hbody Hsep. unfold parse_body. rewrite Hsep.
  cbn [body]. rewrite Hbody. reflexivity.
Qed.

Lemma parse_body_no_separator (request start : bytes) (http : HttpRequest) :
  Libc.strstr request (CRLF ++ CRLF) = None ->
  parse_body request start http =
  Ok (mkRequest (method http) (path http) (body http)
                (Libc.sscanf_content_length start (body_size http))).
Proof.
  intros Hsep. unfold parse_body. now rewrite Hsep.
Qed.

(** The parser faults exactly when both tokens, a [Content-Length:] and a
    blank line are there. *)
Lemma parseHttpRequest_fault_iff (request : bytes) :
  parseHttpRequest (Some request) = Fault <->
  (exists m p, request_tokens request = (Some m, Some p)) /\
  Libc.strstr request (lit "Content-Length:") <> None /\
  Libc.strstr request (CRLF ++ CRLF) <> None.
Proof.
  unfold parseHttpRequest.
  destruct (request_tokens request) as [[m|] [p|]];
    try (split; [discriminate | intros [(m' & p' & [=]) _]]).
  destruct (Libc.strstr request (lit "Content-Length:")) as [start|].
  - destruct (Libc.strstr request (CRLF ++ CRLF)) as [sep|] eqn:Hsep.
    + erewrite parse_body_fault by (try exact Hsep; reflexivity).
      split; [|reflexivity]. intros _. repeat split; try discriminate.
      now exists m, p.
    + rewrite parse_body_no_separator by exact Hsep.
      split; [discriminate | intros (_ & _ & H); now elim H].
  - split; [discriminate | intros (_ & H & _); now elim H].
Qed.

(** Without a blank line the parser completes, and the body stays NULL. *)
Lemma parseHttpRequest_no_separator (request : bytes) :
  Libc.strstr request (CRLF ++ CRLF) = None ->
  exists http,
    parseHttpRequest (Some request) = Ok (Some http) /\ body http = None.
Proof.
  intros Hsep. unfold parseHttpRequest.
  destruct (request_tokens request) as [[m|] [p|]];
    try (eexists; split; reflexivity).
  destruct (Libc.strstr request (lit "Content-Length:")) as [start|].
  - rewrite parse_body_no_separator by exact Hsep.
    eexists; split; reflexivity.
  - eexists; split; reflexivity.
Qed.

(** When the parser returns a request made from the tokens [m] and [p], its
    arrays are the tokens cut at 9 and 99 bytes. *)
Lemma parseHttpRequest_fields (request m p : bytes) (http : HttpRequest) :
  request_tokens request = (Some m, Some p) ->
  parseHttpRequest (Some request) = Ok (Some http) ->
  method http = char_array MAX_METHOD_SIZE (firstn 9 m) /\
  path http = char_array MAX_PATH_SIZE (firstn 99 p).
Proof.
  intros Htok. destruct (request_tokens_nul_free request m p Htok) as [Hm Hp].
  unfold parseHttpRequest. rewrite Htok.
  cbn [method path body body_size request_zero].
  change (MAX_METHOD_SIZE - 1)%nat with 9%nat.
  change (MAX_PATH_SIZE - 1)%nat with 99%nat.
  change MAX_METHOD_SIZE with 10%nat. change MAX_PATH_SIZE with 100%nat.
  rewrite (strncpy_zeroed 9 m Hm), (strncpy_zeroed 99 p Hp).
  destruct (Libc.strstr request (lit "Content-Length:")) as [start|].
  - unfold parse_body. cbn [method path body body_size].
    destruct (Libc.strstr request (CRLF ++ CRLF)); cbn [bind strncpy_at].
    + discriminate.
    + intros [= <-]. split; reflexivity.
  - intros [= <-]. split; reflexivity.
Qed.

Lemma char_array_app (n : nat) (s : bytes) :
  (length s <= n)%nat -> char_array n s = s ++ repeat NUL (n - length s).
Proof.
  intros H. unfold char_array.
  rewrite firstn_app, firstn_all2, firstn_repeat by lia.
  do 2 f_equal. lia.
Qed.

Lemma char_array_length (n : nat) (s : bytes) : length (char_array n s) = n.
Proof.
  unfold char_array. rewrite length_firstn, length_app, repeat_length. lia.
Qed.

(** The last byte of an array that holds a string shorter than the array
    is NUL. *)
Lemma char_array_last (n : nat) (s : bytes) :
  (length s <= n)%nat -> nth n (char_array (S n) s) NUL = NUL.
Proof.
  intros H. rewrite char_array_app by lia.
  rewrite app_nth2 by lia. apply nth_repeat.
Qed.

(** The dispatcher reads nothing of the request but its path. *)
Lemma route_scan_path (fs : filesystem) (r1 r2 : HttpRequest)
    (response : HttpResponse) (size : Z) (routes : list RouteMapping) :
  path r1 = path r2 ->
  route_scan fs routes r1 response size = route_scan fs routes r2 response size.
Proof.
  intros Hpath. induction routes as [|r routes IH]; cbn [route_scan];
    [reflexivity|].
  now rewrite Hpath, IH.
Qed.

Lemma route_scan_log_path (fs : filesystem) (r1 r2 : HttpRequest)
    (routes : list RouteMapping) :
  path r1 = path r2 ->
  route_scan_log fs routes r1 = route_scan_log fs routes r2.
Proof.
  intros Hpath. induction routes as [|r routes IH]; cbn [route_scan_log];
    [reflexivity|].
  now rewrite Hpath, IH.
Qed.

Lemma handleGetRequest_path (fs : filesystem) (r1 r2 : HttpRequest) :
  path r1 = path r2 -> handleGetRequest fs r1 = handleGetRequest fs r2.
Proof.
  intros Hpath. unfold handleGetRequest, get_response, get_log.
  now rewrite (route_scan_path fs r1 r2 _ _ _ Hpath),
    (route_scan_log_path fs r1 r2 _ Hpath).
Qed.

(** C10: when the parser returns a request made from a method token and a
    path token, the request holds the first 9 bytes of the method and the
    first 99 bytes of the path at most, each in an array whose last byte is
    NUL; so two requests whose path tokens agree on their first 99 bytes
    get the same response from the dispatcher (and the same run of
    [handleHttpRequest] when their methods agree on their first 9 bytes
    too). *)
Theorem parser_truncates_and_routes_alike (fs : filesystem)
    (raw1 raw2 m1 p1 m2 p2 : bytes) (http1 http2 : HttpRequest) :
  request_tokens raw1 = (Some m1, Some p1) ->
  request_tokens raw2 = (Some m2, Some p2) ->
  parseHttpRequest (Some raw1) = Ok (Some http1) ->
  parseHttpRequest (Some raw2) = Ok (Some http2) ->
  (c_str (method http1) = firstn 9 m1 /\
   c_str (path http1) = firstn 99 p1 /\
   (length (c_str (method http1)) <= 9)%nat /\
   (length (c_str (path http1)) <= 99)%nat /\
   length (method http1) = MAX_METHOD_SIZE /\
   length (path http1) = MAX_PATH_SIZE /\
   nth 9 (method http1) NUL = NUL /\
   nth 99 (path http1) NUL = NUL) /\
  (firstn 99 p1 = firstn 99 p2 ->
   path http1 = path http2 /\
   get_response fs http1 = get_response fs http2 /\
   handleGetRequest fs http1 = handleGetRequest fs http2 /\
   (firstn 9 m1 = firstn 9 m2 ->
    handleHttpRequest fs (Some http1) = handleHttpRequest fs (Some http2))).
Proof.
  intros Htok1 Htok2 Hparse1 Hparse2.
  destruct (request_tokens_nul_free raw1 m1 p1 Htok1) as [Hm1 Hp1].
  destruct (parseHttpRequest_fields raw1 m1 p1 http1 Htok1 Hparse1)
    as [Hmethod1 Hpath1].
  destruct (parseHttpRequest_fields raw2 m2 p2 http2 Htok2 Hparse2)
    as [Hmethod2 Hpath2].
  assert (Lm : (length (firstn 9 m1) <= 9)%nat) by apply firstn_le_length.
  assert (Lp : (length (firstn 99 p1) <= 99)%nat) by apply firstn_le_length.
  split.
  - rewrite Hmethod1, Hpath1.
    rewrite !c_str_char_array
      by (try apply nul_free_firstn; try assumption;
          unfold MAX_METHOD_SIZE, MAX_PATH_SIZE; lia).
    rewrite !char_array_length.
    repeat split; try assumption.
    + apply (char_array_last 9), Lm.
    + apply (char_array_last 99), Lp.
  - intros Hagree.
    assert (Hpath : path http1 = path http2) by congruence.
    split; [exact Hpath|]. split; [|split].
    + unfold get_response. now apply route_scan_path.
    + now apply handleGetRequest_path.
    + intros Hmagree.
      assert (Hmethod : method http1 = method http2) by congruence.
      unfold handleHttpRequest.
      now rewrite Hmethod, (handleGetRequest_path fs http1 http2 Hpath).
Qed.

(** ** The method check *)

Lemma strncmp_GET (m : bytes) :
  Libc.strncmp m (lit "GET") 3 = 0 <-> firstn 3 (c_str m) = lit "GET".
Proof. rewrite strncmp_zero_iff. reflexivity. Qed.

(** A run of [handleGetRequest] faults or gives bytes to [send]; it is
    never the run that only reports an unsupported method. *)
Lemma handleGetRequest_not_log (fs : filesystem) (request : HttpRequest)
    (text : bytes) :
  handleGetRequest fs request <> Ok [Stderr text].
Proof.
  unfold handleGetRequest.
  destruct (HttpResponseToString (get_response fs request)) as [[msg size]|];
    [|discriminate].
  intros H. injection H as H. apply (f_equal (@length event)) in H.
  rewrite length_app in H. cbn [length] in H. lia.
Qed.

Lemma sent_app (a b : list event) :
  sent (Ok (a ++ b)) = sent (Ok a) ++ sent (Ok b).
Proof. apply flat_map_app. Qed.

(** The error stream is all that the loop of the dispatcher writes to. *)
Lemma get_log_sent (fs : filesystem) (request : HttpRequest) :
  sent (Ok (get_log fs request)) = [].
Proof.
  unfold get_log.
  induction getRouteMappings as [|r routes IH]; cbn [route_scan_log];
    [reflexivity|].
  destruct (Libc.strncmp (path request) (rpath r) MAX_PATH_SIZE =? 0);
    [|exact IH].
  unfold ReadFile_stderr. now destruct (fs (c_str (rlink r))).
Qed.

Lemma handleGetRequest_sends (fs : filesystem) (request : HttpRequest) :
  handleGetRequest fs request = Fault \/
  exists data, sent (handleGetRequest fs request) = [data].
Proof.
  unfold handleGetRequest.
  destruct (HttpResponseToString (get_response fs request)) as [[msg size]|].
  - right. eexists. rewrite sent_app, get_log_sent. reflexivity.
  - now left.
Qed.

(** C8, as the code has it: the GET dispatch is invoked exactly when the
    first three bytes of the method of the request are [GET], whatever
    follows them; for every other method the unsupported method is
    reported on the error stream and nothing is given to [send]. *)
Theorem handleHttpRequest_dispatch (fs : filesystem) (request : HttpRequest) :
  (firstn 3 (c_str (method request)) = lit "GET" <->
   handleHttpRequest fs (Some request) = handleGetRequest fs request) /\
  (firstn 3 (c_str (method request)) <> lit "GET" <->
   handleHttpRequest fs (Some request) =
   Ok [Stderr (lit "Unsupported HTTP method: "
               ++ c_str (method request) ++ [LF])]) /\
  (firstn 3 (c_str (method request)) <> lit "GET" ->
   sent (handleHttpRequest fs (Some request)) = []).
Proof.
  unfold handleHttpRequest.
  destruct (Z.eqb_spec (Libc.strncmp (method request) (lit "GET") 3) 0)
    as [E|E]; rewrite strncmp_GET in E.
  - split; [tauto|]. split; [|contradiction].
    split; [contradiction|].
    intros H. now apply handleGetRequest_not_log in H.
  - split; [|split; [tauto | reflexivity]].
    split; [contradiction|].
    intros H. symmetry in H. now apply handleGetRequest_not_log in H.
Qed.

(** ** The command line *)

Lemma main_argc (env : Cli.sockets) (argv : list bytes) :
  length argv <> 3%nat -> Cli.main env argv = Some Cli.EXIT_FAILURE.
Proof.
  intros H. unfold Cli.main.
  destruct (Z.eqb_spec (Z.of_nat (length argv)) 3) as [E|E]; [lia|reflexivity].
Qed.

Lemma main_bad_address (env : Cli.sockets) (argv : list bytes) :
  Cli.inet_pton (nth 1 argv []) = None ->
  Cli.main env argv = Some Cli.EXIT_FAILURE.
Proof.
  intros H. unfold Cli.main. rewrite H.
  now destruct (negb (Z.of_nat (length argv) =? 3)).
Qed.

(** The port that is checked is the value of [atoi] cut to 16 bits. *)
Lemma main_bad_port (env : Cli.sockets) (argv : list bytes) :
  let port := Libc.atoi (nth 2 argv []) mod 2 ^ 16 in
  port <= 0 \/ 65534 < port ->
  Cli.main env argv = Some Cli.EXIT_FAILURE.
Proof.
  intros port H. unfold Cli.main. fold port.
  destruct (negb (Z.of_nat (length argv) =? 3)); [reflexivity|].
  destruct (Cli.inet_pton (nth 1 argv [])); [|reflexivity].
  destruct (Z.leb_spec port 0), (Z.ltb_spec 65534 port);
    try reflexivity; lia.
Qed.

(** When the listening socket cannot be set up the exit status is 1 too;
    when it can, the process does not exit. *)
Lemma main_serves (env : Cli.sockets) (argv : list bytes) :
  Cli.main env argv = None \/ Cli.main env argv = Some Cli.EXIT_FAILURE.
Proof.
  unfold Cli.main, Cli.startHttpServer.
  destruct (negb (Z.of_nat (length argv) =? 3)); [now right|].
  destruct (Cli.inet_pton (nth 1 argv [])); [|now right].
  destruct (_ || _); [now right|].
  destruct (Cli.socket_ok env), (Cli.bind_ok env), (Cli.listen_ok env); auto.
Qed.

(** ** Searching a string *)

Lemma avoidsb_spec (k : ascii) (s : bytes) : avoidsb k s = true <-> avoids k s.
Proof.
  unfold avoidsb, avoids. rewrite forallb_forall, Forall_forall.
  split; intros H c Hc; specialize (H c Hc).
  - apply Ascii.eqb_neq. now destruct (Ascii.eqb c k).
  - apply Ascii.eqb_neq in H. now rewrite H.
Qed.

Lemma avoids_app (k : ascii) (s t : bytes) :
  avoids k (s ++ t) <-> avoids k s /\ avoids k t.
Proof. apply Forall_app. Qed.

(** A needle is not found before the first occurrence of its first byte. *)
Lemma find_sub_skip (k : ascii) (ks pre s : bytes) :
  avoids k pre ->
  Libc.find_sub (k :: ks) (pre ++ s) = Libc.find_sub (k :: ks) s.
Proof.
  induction 1 as [|c pre Hc _ IH]; [reflexivity|].
  cbn [app Libc.find_sub Libc.starts_with].
  assert (E : Ascii.eqb k c = false) by (apply Ascii.eqb_neq; congruence).
  rewrite E. exact IH.
Qed.

(** A needle does not start in [s] and run into what follows [s] when the
    byte that follows is not one of its bytes. *)
Lemma starts_with_app_false (key : bytes) : forall (s : bytes) (c : ascii)
    (rest : bytes),
  Libc.starts_with key s = false -> ~ In c key ->
  Libc.starts_with key (s ++ c :: rest) = false.
Proof.
  induction key as [|a key IH]; intros s c rest Hs Hc; [discriminate|].
  destruct s as [|b s]; cbn [app Libc.starts_with] in *.
  - assert (E : Ascii.eqb a c = false).
    { apply Ascii.eqb_neq. intros ->. apply Hc. now left. }
    now rewrite E.
  - destruct (Ascii.eqb a b); [|reflexivity].
    cbn [andb] in *. apply IH; [exact Hs|].
    intros H. apply Hc. now right.
Qed.

Lemma find_sub_app_none (key s : bytes) (c : ascii) (rest : bytes) :
  Libc.find_sub key s = None -> ~ In c key ->
  Libc.find_sub key (s ++ c :: rest) = Libc.find_sub key (c :: rest).
Proof.
  intros Hs Hc. induction s as [|b s IH]; [reflexivity|].
  cbn [Libc.find_sub] in Hs.
  destruct (Libc.starts_with key (b :: s)) eqn:E; [discriminate|].
  change ((b :: s) ++ c :: rest) with (b :: (s ++ c :: rest)).
  cbn [Libc.find_sub].
  change (b :: (s ++ c :: rest)) with ((b :: s) ++ c :: rest).
  rewrite (starts_with_app_false key (b :: s) c rest E Hc).
  apply IH, Hs.
Qed.

(** ** Decimal digits *)

Lemma digit_char_facts (d : Z) :
  0 <= d < 10 ->
  Libc.isdigit (Libc.digit_char d) = true /\
  Libc.digit_val (Libc.digit_char d) = d /\
  Libc.isspace (Libc.digit_char d) = false /\
  Ascii.eqb (Libc.digit_char d) "-"%char = false /\
  Ascii.eqb (Libc.digit_char d) "+"%char = false /\
  Libc.digit_char d <> CR /\
  Libc.digit_char d <> "C"%char /\
  Libc.digit_char d <> NUL.
Proof.
  intros H.
  assert (E : d = 0 \/ d = 1 \/ d = 2 \/ d = 3 \/ d = 4 \/
              d = 5 \/ d = 6 \/ d = 7 \/ d = 8 \/ d = 9) by lia.
  repeat (destruct E as [->|E]; [repeat split; discriminate|]).
  subst d. repeat split; discriminate.
Qed.

Lemma dec_digits_app (fuel : nat) : forall (n : Z) (acc rest : bytes),
  Libc.dec_digits fuel n acc ++ rest = Libc.dec_digits fuel n (acc ++ rest).
Proof.
  induction fuel as [|f IH]; intros n acc rest; cbn [Libc.dec_digits];
    [reflexivity|].
  destruct (n <? 10); [reflexivity|]. apply IH.
Qed.

(** Whatever holds of the ten digits holds of the bytes that are printed. *)
Lemma dec_digits_Forall (P : ascii -> Prop) (fuel : nat) :
  (forall d, 0 <= d < 10 -> P (Libc.digit_char d)) ->
  forall (n : Z) (acc : bytes),
    Forall P acc -> Forall P (Libc.dec_digits fuel n acc).
Proof.
  intros HP. induction fuel as [|f IH]; intros n acc Hacc;
    cbn [Libc.dec_digits]; [exact Hacc|].
  assert (Hd : P (Libc.digit_char (n mod 10))).
  { apply HP. apply Z.mod_pos_bound. lia. }
  destruct (n <? 10); [now constructor|].
  apply IH. now constructor.
Qed.

Lemma dec_digits_head (fuel : nat) : forall (n : Z) (acc : bytes),
  exists d tail,
    0 <= d < 10 /\
    Libc.dec_digits (S fuel) n acc = Libc.digit_char d :: tail.
Proof.
  induction fuel as [|f IH]; intros n acc.
  - exists (n mod 10), acc. split; [apply Z.mod_pos_bound; lia|].
    cbn [Libc.dec_digits]. now destruct (n <? 10).
  - change (Libc.dec_digits (S (S f)) n acc)
      with (if n <? 10 then Libc.digit_char (n mod 10) :: acc
            else Libc.dec_digits (S f) (n / 10)
                                 (Libc.digit_char (n mod 10) :: acc)).
    destruct (n <? 10).
    + exists (n mod 10), acc. split; [apply Z.mod_pos_bound; lia|reflexivity].
    + apply IH.
Qed.

(** Reading the printed digits back gives the number. *)
Lemma read_dec_digits (fuel : nat) : forall (n : Z) (acc : bytes),
  0 <= n < 10 ^ Z.of_nat fuel ->
  Libc.read_digits (Libc.dec_digits fuel n acc) 0 = Libc.read_digits acc n.
Proof.
  induction fuel as [|f IH]; intros n acc Hn.
  - cbn [Libc.dec_digits]. f_equal. simpl in Hn. lia.
  - cbn [Libc.dec_digits].
    assert (Hmod : 0 <= n mod 10 < 10) by (apply Z.mod_pos_bound; lia).
    destruct (digit_char_facts (n mod 10) Hmod) as (Hdig & Hval & _).
    destruct (Z.ltb_spec n 10) as [Hlt|Hge].
    + cbn [Libc.read_digits]. rewrite Hdig, Hval.
      f_equal. rewrite Z.mod_small; lia.
    + rewrite IH.
      * cbn [Libc.read_digits]. rewrite Hdig, Hval. f_equal.
        pose proof (Z.div_mod n 10). lia.
      * rewrite Nat2Z.inj_succ, Z.pow_succ_r in Hn by lia.
        split; [apply Z.div_pos; lia|].
        apply Z.div_lt_upper_bound; lia.
Qed.

(** [%zu] of [scanf] reads back what [%zu] of [printf] wrote, when a byte
    that is not a digit follows. *)
Lemma scan_print_zu (n : Z) (c : ascii) (rest : bytes) :
  0 <= n < 2 ^ 64 ->
  Libc.isdigit c = false ->
  Libc.scan_zu (" "%char :: Libc.print_zu n ++ c :: rest) = Some n.
Proof.
  intros Hn Hc. unfold Libc.scan_zu, Libc.print_zu.
  rewrite Z.mod_small by exact Hn.
  rewrite dec_digits_app. cbn [app].
  change (Libc.skip_space (" "%char :: ?s)) with (Libc.skip_space s).
  destruct (dec_digits_head 19 n (c :: rest)) as (d & tail & Hd & Ehead).
  destruct (digit_char_facts d Hd) as (Hdig & _ & Hsp & Hminus & Hplus & _).
  assert (Eread : Libc.read_digits (Libc.dec_digits 20 n (c :: rest)) 0 = n).
  { rewrite read_dec_digits by (simpl; lia).
    cbn [Libc.read_digits]. now rewrite Hc. }
  rewrite Ehead in *. cbn [Libc.skip_space]. rewrite Hsp.
  unfold Libc.read_signed. rewrite Hminus, Hplus, Hdig, Eread.
  unfold Libc.SIZE_MAX.
  destruct (Z.leb_spec n (2 ^ 64 - 1)); [reflexivity|lia].
Qed.

Lemma print_d_avoids (k : ascii) (n : Z) :
  (forall d, 0 <= d < 10 -> Libc.digit_char d <> k) -> k <> "-"%char ->
  avoids k (Libc.print_d n).
Proof.
  intros Hk Hminus. unfold Libc.print_d.
  destruct (Libc.wrap_int n <? 0).
  - constructor; [congruence|].
    apply dec_digits_Forall; [exact Hk | constructor].
  - apply dec_digits_Forall; [exact Hk | constructor].
Qed.

Lemma print_zu_avoids (k : ascii) (n : Z) :
  (forall d, 0 <= d < 10 -> Libc.digit_char d <> k) ->
  avoids k (Libc.print_zu n).
Proof.
  intros Hk. apply dec_digits_Forall; [exact Hk | constructor].
Qed.

Lemma digit_not_CR (d : Z) : 0 <= d < 10 -> Libc.digit_char d <> CR.
Proof. intros H. apply (digit_char_facts d H). Qed.

Lemma digit_not_C (d : Z) : 0 <= d < 10 -> Libc.digit_char d <> "C"%char.
Proof. intros H. apply (digit_char_facts d H). Qed.

Lemma digit_not_NUL (d : Z) : 0 <= d < 10 -> Libc.digit_char d <> NUL.
Proof. intros H. apply (digit_char_facts d H). Qed.

(** The fixed part of the header between the status line and the value of
    [Content-Length]. *)
Lemma find_key_in_header (x : bytes) :
  Libc.find_sub (lit "Content-Length:")
    (CR :: LF :: lit "Content-Type: text/html;charset=UTF-8" ++ CRLF
     ++ lit "Content-Length: " ++ x)
  = Some (lit "Content-Length: " ++ x).
Proof. reflexivity. Qed.

Lemma find_separator_in_header (x : bytes) :
  Libc.find_sub (CRLF ++ CRLF)
    (lit "Content-Type: text/html;charset=UTF-8" ++ CRLF
     ++ lit "Content-Length: " ++ x)
  = Libc.find_sub (CRLF ++ CRLF) x.
Proof. reflexivity. Qed.

(** The blank line is not found in the status line, nor in the fixed part
    of the header. *)
Lemma find_separator_after_status (line msg x : bytes) :
  avoids CR line ->
  Libc.find_sub (CRLF ++ CRLF) (msg ++ CRLF) = None ->
  Libc.find_sub (CRLF ++ CRLF)
    (line ++ msg ++ CR :: LF :: lit "Content-Type: text/html;charset=UTF-8"
     ++ CRLF ++ lit "Content-Length: " ++ x)
  = Libc.find_sub (CRLF ++ CRLF) x.
Proof.
  intros Hline Hmsg.
  etransitivity; [apply (find_sub_skip CR [LF; CR; LF]), Hline|].
  transitivity
    (Libc.find_sub (CRLF ++ CRLF)
       ((msg ++ CRLF)
        ++ "C"%char :: lit "ontent-Type: text/html;charset=UTF-8" ++ CRLF
        ++ lit "Content-Length: " ++ x)).
  { rewrite <- app_assoc. reflexivity. }
  etransitivity.
  { apply find_sub_app_none; [exact Hmsg|].
    cbn. intuition discriminate. }
  apply find_separator_in_header.
Qed.

(** A status message without a carriage return is plain as soon as it
    holds no [Content-Length:]. *)
Lemma plain_status_no_CR (msg : bytes) :
  avoids CR msg ->
  Libc.find_sub (lit "Content-Length:") msg = None ->
  plain_status msg.
Proof.
  intros Hcr Hkey. split; [|exact Hkey].
  etransitivity; [apply (find_sub_skip CR [LF; CR; LF]), Hcr|].
  reflexivity.
Qed.

Lemma response_format_nul_free (r : HttpResponse) :
  nul_free (response_format r).
Proof.
  unfold response_format.
  repeat (apply nul_free_app; split);
    try apply c_str_nul_free;
    try (apply nul_freeb_spec; reflexivity).
  - apply print_d_avoids; [exact digit_not_NUL | discriminate].
  - apply print_zu_avoids. exact digit_not_NUL.
Qed.

(** The serialized response, cut where the searches need it. *)
Lemma response_format_shape (r : HttpResponse) :
  response_format r =
  (lit "HTTP/1.1 " ++ Libc.print_d (status_code r) ++ lit " ")
  ++ c_str (status_message r)
  ++ CR :: LF :: lit "Content-Type: text/html;charset=UTF-8" ++ CRLF
  ++ lit "Content-Length: "
  ++ Libc.print_zu (content_length r)
  ++ CR :: LF :: CR :: LF :: c_str (content r).
Proof.
  unfold response_format. rewrite <- !app_assoc. reflexivity.
Qed.

Lemma status_line_avoids (k : ascii) (n : Z) :
  avoidsb k (lit "HTTP/1.1 ") = true ->
  (forall d, 0 <= d < 10 -> Libc.digit_char d <> k) -> k <> "-"%char ->
  avoids k (lit "HTTP/1.1 " ++ Libc.print_d n ++ lit " ").
Proof.
  intros Hlit Hk Hminus. apply avoidsb_spec in Hlit.
  apply avoids_app. split; [exact Hlit|].
  apply avoids_app. split; [now apply print_d_avoids|].
  constructor; [|constructor].
  unfold avoids in Hlit. rewrite Forall_forall in Hlit.
  apply Hlit. do 8 right. now left.
Qed.

Section RoundTrip.

Variable r : HttpResponse.
Variable payload : bytes.

Hypothesis Hcontent : content r = payload ++ [NUL].
Hypothesis Hlength : content_length r = Z.of_nat (length payload).
Hypothesis Hsize : content_length r < 2 ^ 64.
Hypothesis Hpayload : nul_free payload.
Hypothesis Hstatus : plain_status (c_str (status_message r)).

Lemma content_is_payload : c_str (content r) = payload.
Proof. rewrite Hcontent. now apply c_str_app_nul. Qed.

Lemma content_length_range : 0 <= content_length r < 2 ^ 64.
Proof. split; [rewrite Hlength; lia | exact Hsize]. Qed.

Lemma strstr_key_format :
  Libc.strstr (response_format r) (lit "Content-Length:") =
  Some (lit "Content-Length: " ++ Libc.print_zu (content_length r)
        ++ CR :: LF :: CR :: LF :: payload).
Proof.
  unfold Libc.strstr.
  rewrite (c_str_id _ (response_format_nul_free r)).
  rewrite response_format_shape, content_is_payload.
  destruct Hstatus as [_ Hkey].
  etransitivity.
  { apply (find_sub_skip "C"%char (lit "ontent-Length:")).
    apply status_line_avoids;
      [reflexivity | exact digit_not_C | discriminate]. }
  etransitivity.
  { apply find_sub_app_none; [exact Hkey|].
    cbn. intuition discriminate. }
  apply find_key_in_header.
Qed.

Lemma reparsed_content_length_format :
  reparsed_content_length (response_format r) = Some (content_length r).
Proof.
  unfold reparsed_content_length. rewrite strstr_key_format. f_equal.
  unfold Libc.sscanf_content_length.
  assert (Hfree : nul_free (lit "Content-Length: "
                            ++ Libc.print_zu (content_length r)
                            ++ CR :: LF :: CR :: LF :: payload)).
  { apply nul_free_app. split; [apply nul_freeb_spec; reflexivity|].
    apply nul_free_app. split; [apply print_zu_avoids, digit_not_NUL|].
    repeat (constructor; [discriminate|]). exact Hpayload. }
  rewrite (c_str_id _ Hfree).
  change (Libc.starts_with (lit "Content-Length:") (lit "Content-Length: " ++ ?x))
    with true.
  change (skipn (length (lit "Content-Length:")) (lit "Content-Length: " ++ ?x))
    with (" "%char :: x).
  cbv iota.
  now rewrite (scan_print_zu _ CR _ content_length_range).
Qed.

Lemma content_portion_format :
  content_portion (response_format r) = Some payload.
Proof.
  unfold content_portion, Libc.strstr.
  rewrite (c_str_id _ (response_format_nul_free r)).
  rewrite response_format_shape, content_is_payload.
  destruct Hstatus as [Hsep _].
  rewrite find_separator_after_status;
    [| apply status_line_avoids;
       [reflexivity | exact digit_not_CR | discriminate]
     | exact Hsep].
  rewrite (find_sub_skip CR [LF; CR; LF])
    by apply print_zu_avoids, digit_not_CR.
  reflexivity.
Qed.

End RoundTrip.

(** The builder returns a string whenever an [int] can hold the size of
    its allocation, one more than its length. *)
Lemma HttpResponseToString_returns (r : HttpResponse) :
  Z.of_nat (length (response_format r)) < Libc.INT_MAX ->
  HttpResponseToString r =
  Some (response_format r, Z.of_nat (length (response_format r))).
Proof.
  intros H. unfold HttpResponseToString.
  destruct (Z.leb_spec (Z.of_nat (length (response_format r)) + 1)
                       Libc.INT_MAX);
    [reflexivity | lia].
Qed.

(** The round trip, from the two searches. *)
Lemma round_trip_plain (r : HttpResponse) (payload : bytes) :
  content r = payload ++ [NUL] ->
  content_length r = Z.of_nat (length payload) ->
  content_length r < 2 ^ 64 ->
  nul_free payload ->
  plain_status (c_str (status_message r)) ->
  round_trip r = true.
Proof.
  intros Hcontent Hlength Hsize Hpayload Hstatus. unfold round_trip.
  rewrite (content_portion_format r payload Hcontent Hpayload Hstatus).
  rewrite (reparsed_content_length_format r payload Hcontent Hlength
             Hsize Hpayload Hstatus).
  rewrite Hlength. apply Z.eqb_refl.
Qed.


(** ** What is sent for a routed file *)

(** For a routed file that can be read, the bytes given to [send] are the
    serialized response 200; when the file holds no NUL byte, what follows
    the blank line is the file. *)
Lemma handleGetRequest_sends_file (fs : filesystem) (request : HttpRequest)
    (route : RouteMapping) (file : bytes) :
  In route getRouteMappings ->
  c_str (path request) = c_str (rpath route) ->
  fs (c_str (rlink route)) = Some file ->
  let response :=
    mkResponse 200 (lit "OK") (Z.of_nat (length file)) (file ++ [NUL]) in
  Z.of_nat (length (response_format response)) < Libc.INT_MAX ->
  sent (handleGetRequest fs request) = [response_format response] /\
  (nul_free file ->
   content_portion (response_format response) = Some file).
Proof.
  intros Hin Hpath Hfile response Hlen. split.
  - unfold handleGetRequest.
    rewrite (get_response_match fs request route Hin Hpath), Hfile.
    rewrite (get_log_match fs request route Hin Hpath).
    unfold ReadFile_stderr. rewrite Hfile.
    fold response.
    rewrite (HttpResponseToString_returns response Hlen).
    cbn [sent flat_map app]. now rewrite Nat2Z.id, firstn_all.
  - intros Hfree. apply content_portion_format; [reflexivity | exact Hfree|].
    split; reflexivity.
Qed.

(** ** What the dispatcher builds round-trips *)

Lemma route_scan_cases (fs : filesystem) (request : HttpRequest)
    (response : HttpResponse) (size : Z) (routes : list RouteMapping) :
  route_scan fs routes request response size = response \/
  exists route,
    In route routes /\
    route_scan fs routes request response size =
    match ReadFile fs (rlink route) size with
    | (Some file_content, size) => mkResponse 200 (lit "OK") size file_content
    | (None, _) =>
        mkResponse 500 (lit "Internal Server Error")
                   (content_length response) (content response)
    end.
Proof.
  induction routes as [|r routes IH]; cbn [route_scan]; [now left|].
  destruct (Libc.strncmp (path request) (rpath r) MAX_PATH_SIZE =? 0).
  - right. exists r. split; [now left|].
    cbn [status_code status_message content_length content].
    now destruct (ReadFile fs (rlink r) size) as [[c|] sz].
  - destruct IH as [IH|(route & Hin & IH)]; [now left|].
    right. exists route. split; [now right | exact IH].
Qed.

(** Whatever the request, when the routed files hold no NUL byte and are
    shorter than 2^64 bytes, the response that the dispatcher builds
    satisfies the round trip. *)
Lemma get_response_round_trip (fs : filesystem) (request : HttpRequest) :
  (forall route file,
     In route getRouteMappings -> fs (c_str (rlink route)) = Some file ->
     nul_free file /\ Z.of_nat (length file) < 2 ^ 64) ->
  round_trip (get_response fs request) = true.
Proof.
  intros Hfiles. unfold get_response.
  destruct (route_scan_cases fs request
              (mkResponse 404 (lit "Not Found") 0 [NUL]) 0 getRouteMappings)
    as [E|(route & Hin & E)]; rewrite E.
  - reflexivity.
  - unfold ReadFile.
    destruct (fs (c_str (rlink route))) as [file|] eqn:Hfile; [|reflexivity].
    destruct (Hfiles route file Hin Hfile) as [Hfree Hlen].
    apply (round_trip_plain _ file); try reflexivity; try assumption.
    split; reflexivity.
Qed.

(** [%d] prints every [int] in full: the digits read back give its
    magnitude. *)
Lemma print_d_reads_back (n : Z) :
  Libc.INT_MIN <= n <= Libc.INT_MAX ->
  Libc.print_d n =
  (if n <? 0 then ["-"%char] else []) ++ Libc.dec_digits 10 (Z.abs n) [] /\
  Libc.read_digits (Libc.dec_digits 10 (Z.abs n) []) 0 = Z.abs n.
Proof.
  unfold Libc.INT_MIN, Libc.INT_MAX. intros Hn.
  assert (Hwrap : Libc.wrap_int n = n).
  { unfold Libc.wrap_int. rewrite Z.mod_small; lia. }
  split.
  - unfold Libc.print_d. rewrite Hwrap.
    destruct (Z.ltb_spec n 0).
    + now rewrite Z.abs_neq by lia.
    + now rewrite Z.abs_eq by lia.
  - rewrite read_dec_digits; [reflexivity|]. simpl Z.of_nat. lia.
Qed.

(** * Concrete runs *)

(** The request line of the specification parses to [GET] and [/]. *)
Example parse_raw_get :
  parseHttpRequest (Some raw_get) = Ok (Some (request_of (lit "GET") (lit "/"))).
Proof. vm_compute. reflexivity. Qed.

Lemma get_response_ok_witness :
  status_code (get_response demo_fs (request_of (lit "GET") (lit "/"))) = 200 /\
  status_message (get_response demo_fs (request_of (lit "GET") (lit "/")))
  = lit "OK" /\
  content_length (get_response demo_fs (request_of (lit "GET") (lit "/")))
  = Z.of_nat (length index_html) /\
  content (get_response demo_fs (request_of (lit "GET") (lit "/")))
  = index_html ++ [NUL] /\
  firstn (Z.to_nat (content_length
                      (get_response demo_fs (request_of (lit "GET") (lit "/")))))
         (content (get_response demo_fs (request_of (lit "GET") (lit "/"))))
  = index_html.
Proof.
  apply (get_response_ok demo_fs (request_of (lit "GET") (lit "/"))
                         index_route index_html).
  - left. reflexivity.
  - vm_compute. reflexivity.
  - vm_compute. reflexivity.
Defined.

Lemma get_response_not_found_witness :
  status_code (get_response demo_fs (request_of (lit "GET") (lit "/nope")))
  = 404 /\
  status_message (get_response demo_fs (request_of (lit "GET") (lit "/nope")))
  = lit "Not Found" /\
  c_str (content (get_response demo_fs (request_of (lit "GET") (lit "/nope"))))
  = [] /\
  content_length (get_response demo_fs (request_of (lit "GET") (lit "/nope")))
  = 0.
Proof.
  apply (get_response_not_found demo_fs (request_of (lit "GET") (lit "/nope"))).
  intros route [<-|[<-|[]]]; vm_compute; discriminate.
Defined.

Lemma get_response_load_failure_witness :
  status_code (get_response demo_fs (request_of (lit "GET") (lit "/test")))
  = 500 /\
  status_message (get_response demo_fs (request_of (lit "GET") (lit "/test")))
  = lit "Internal Server Error" /\
  c_str (content (get_response demo_fs (request_of (lit "GET") (lit "/test"))))
  = [] /\
  content_length (get_response demo_fs (request_of (lit "GET") (lit "/test")))
  = 0.
Proof.
  apply (get_response_load_failure demo_fs
           (request_of (lit "GET") (lit "/test")) test_route).
  - right. left. reflexivity.
  - vm_compute. reflexivity.
  - vm_compute. reflexivity.
Defined.

(** C4, at an input without a path token: the tokens cannot be taken, and
    the parser returns a request, the zeroed one, where NULL is promised;
    the same for the empty input. *)
Theorem parse_without_path_returns_request :
  request_tokens (lit "GET") = (Some (lit "GET"), None) /\
  parseHttpRequest (Some (lit "GET")) = Ok (Some request_zero) /\
  request_tokens [] = (None, None) /\
  parseHttpRequest (Some []) = Ok (Some request_zero).
Proof. repeat split; vm_compute; reflexivity. Qed.

(** C5, at the request of the specification: the header is found and its
    value 5 is read, the blank line is found, and the copy of the body
    faults on the NULL body pointer; no request is returned. *)
Theorem parse_content_length_body_faults :
  Libc.strstr raw_post (lit "Content-Length:")
  = Some (lit "Content-Length: 5" ++ CRLF ++ CRLF ++ lit "hello") /\
  Libc.sscanf_content_length
    (lit "Content-Length: 5" ++ CRLF ++ CRLF ++ lit "hello") 0 = 5 /\
  Libc.strstr raw_post (CRLF ++ CRLF) = Some (CRLF ++ CRLF ++ lit "hello") /\
  parseHttpRequest (Some raw_post) = Fault.
Proof. repeat split; vm_compute; reflexivity. Qed.

(** C6, at a request whose [Content-Length] is not a number: the
    conversion fails, nothing is assigned to the size, which stays 0, the
    blank line is found, and the write of the terminator of the empty body
    faults on the NULL body pointer; no request is returned. *)
Theorem parse_malformed_length_faults :
  Libc.strstr raw_malformed (lit "Content-Length:")
  = Some (lit "Content-Length: abc" ++ CRLF ++ CRLF ++ lit "hello") /\
  Libc.scan_zu (lit " abc" ++ CRLF ++ CRLF ++ lit "hello") = None /\
  Libc.sscanf_content_length
    (lit "Content-Length: abc" ++ CRLF ++ CRLF ++ lit "hello") 0 = 0 /\
  Libc.strstr raw_malformed (CRLF ++ CRLF)
  = Some (CRLF ++ CRLF ++ lit "hello") /\
  parseHttpRequest (Some raw_malformed) = Fault.
Proof. repeat split; vm_compute; reflexivity. Qed.



(** The method [GETX] is not [GET], and its request is dispatched and
    answered. *)
Lemma getx_is_dispatched :
  parseHttpRequest (Some raw_getx)
  = Ok (Some (request_of (lit "GETX") (lit "/"))) /\
  c_str (method (request_of (lit "GETX") (lit "/"))) = lit "GETX" /\
  lit "GETX" <> lit "GET" /\
  handleHttpRequest demo_fs (Some (request_of (lit "GETX") (lit "/")))
  = handleGetRequest demo_fs (request_of (lit "GETX") (lit "/")) /\
  sent (serve demo_fs raw_getx)
  = [response_format (mkResponse 200 (lit "OK") 11 (index_html ++ [NUL]))].
Proof.
  split; [vm_compute; reflexivity|].
  split; [vm_compute; reflexivity|].
  split; [discriminate|].
  split; vm_compute; reflexivity.
Qed.

(** C9, at the port 65537: [atoi] gives 65537, outside of the interval,
    the conversion to [unsigned short] makes it 1, the check passes and
    the server is started; the process does not exit with status 1. *)
Theorem main_accepts_port_65537 :
  Cli.inet_pton (lit "127.0.0.1") = Some [127; 0; 0; 1] /\
  Libc.atoi (lit "65537") = 65537 /\
  Libc.atoi (lit "65537") mod 2 ^ 16 = 1 /\
  Cli.startHttpServer all_sockets_ok [127; 0; 0; 1] (Cli.htons 1) = None /\
  Cli.main all_sockets_ok [lit "./server"; lit "127.0.0.1"; lit "65537"]
  = None.
Proof. repeat split; vm_compute; reflexivity. Qed.

Lemma parser_truncates_and_routes_alike_witness :
  (c_str (method (request_of (lit "GETTING-M") (firstn 99 long_path_x)))
   = firstn 9 (lit "GETTING-MORE") /\
   c_str (path (request_of (lit "GETTING-M") (firstn 99 long_path_x)))
   = firstn 99 long_path_x /\
   (length (c_str (method (request_of (lit "GETTING-M")
                                      (firstn 99 long_path_x)))) <= 9)%nat /\
   (length (c_str (path (request_of (lit "GETTING-M")
                                    (firstn 99 long_path_x)))) <= 99)%nat /\
   length (method (request_of (lit "GETTING-M") (firstn 99 long_path_x)))
   = MAX_METHOD_SIZE /\
   length (path (request_of (lit "GETTING-M") (firstn 99 long_path_x)))
   = MAX_PATH_SIZE /\
   nth 9 (method (request_of (lit "GETTING-M") (firstn 99 long_path_x))) NUL
   = NUL /\
   nth 99 (path (request_of (lit "GETTING-M") (firstn 99 long_path_x))) NUL
   = NUL) /\
  (firstn 99 long_path_x = firstn 99 long_path_yz ->
   path (request_of (lit "GETTING-M") (firstn 99 long_path_x))
   = path (request_of (lit "GETTING-M") (firstn 99 long_path_yz)) /\
   get_response demo_fs (request_of (lit "GETTING-M") (firstn 99 long_path_x))
   = get_response demo_fs
       (request_of (lit "GETTING-M") (firstn 99 long_path_yz)) /\
   handleGetRequest demo_fs
     (request_of (lit "GETTING-M") (firstn 99 long_path_x))
   = handleGetRequest demo_fs
       (request_of (lit "GETTING-M") (firstn 99 long_path_yz)) /\
   (firstn 9 (lit "GETTING-MORE") = firstn 9 (lit "GETTING-MORE") ->
    handleHttpRequest demo_fs
      (Some (request_of (lit "GETTING-M") (firstn 99 long_path_x)))
    = handleHttpRequest demo_fs
        (Some (request_of (lit "GETTING-M") (firstn 99 long_path_yz))))).
Proof.
  apply (parser_truncates_and_routes_alike demo_fs
           (raw_long long_path_x) (raw_long long_path_yz)
           (lit "GETTING-MORE") long_path_x (lit "GETTING-MORE") long_path_yz).
  - vm_compute. reflexivity.
  - vm_compute. reflexivity.
  - vm_compute. reflexivity.
  - vm_compute. reflexivity.
Defined.

(** * Further properties *)

(** ** Tokens *)

Lemma is_delim_space (c : ascii) :
  Libc.is_delim (lit " ") c = Ascii.eqb c SP.
Proof. unfold Libc.is_delim. simpl. apply orb_false_r. Qed.

Lemma skip_delims_spaces (k : nat) (s : bytes) :
  Libc.skip_delims (lit " ") (repeat SP k ++ s) = Libc.skip_delims (lit " ") s.
Proof.
  induction k as [|k IH]; [reflexivity|].
  cbn [repeat app Libc.skip_delims]. rewrite is_delim_space.
  now rewrite Ascii.eqb_refl.
Qed.

Lemma skip_delims_token (c : ascii) (s : bytes) :
  c <> SP -> Libc.skip_delims (lit " ") (c :: s) = c :: s.
Proof.
  intros Hc. cbn [Libc.skip_delims]. rewrite is_delim_space.
  apply Ascii.eqb_neq in Hc. now rewrite Hc.
Qed.

Lemma split_token_end (m : bytes) :
  avoids SP m -> Libc.split_token (lit " ") m = (m, []).
Proof.
  induction 1 as [|c m Hc _ IH]; [reflexivity|].
  cbn [Libc.split_token]. rewrite is_delim_space.
  apply Ascii.eqb_neq in Hc. now rewrite Hc, IH.
Qed.

Lemma split_token_space (m rest : bytes) :
  avoids SP m -> Libc.split_token (lit " ") (m ++ SP :: rest) = (m, rest).
Proof.
  induction 1 as [|c m Hc _ IH]; cbn [app Libc.split_token];
    rewrite is_delim_space.
  - now rewrite Ascii.eqb_refl.
  - apply Ascii.eqb_neq in Hc. now rewrite Hc, IH.
Qed.

(** [strtok] on a token that a space ends, and on a token that ends the
    string. *)
Lemma strtok_space (m rest : bytes) :
  m <> [] -> avoids SP m ->
  Libc.strtok (m ++ SP :: rest) (lit " ") = (Some m, rest).
Proof.
  intros Hne Hm. unfold Libc.strtok.
  destruct m as [|c m]; [contradiction|].
  change ((c :: m) ++ SP :: rest) with (c :: (m ++ SP :: rest)).
  rewrite skip_delims_token by (inversion Hm; assumption).
  change (c :: (m ++ SP :: rest)) with ((c :: m) ++ SP :: rest).
  now rewrite split_token_space.
Qed.

Lemma strtok_end (m : bytes) :
  m <> [] -> avoids SP m -> Libc.strtok m (lit " ") = (Some m, []).
Proof.
  intros Hne Hm. unfold Libc.strtok.
  destruct m as [|c m]; [contradiction|].
  rewrite skip_delims_token by (inversion Hm; assumption).
  now rewrite split_token_end.
Qed.

Lemma strtok_spaces (k : nat) :
  Libc.strtok (repeat SP k) (lit " ") = (None, []).
Proof.
  unfold Libc.strtok.
  rewrite <- (app_nil_r (repeat SP k)), skip_delims_spaces. reflexivity.
Qed.

Lemma c_str_app (s t : bytes) : nul_free s -> c_str (s ++ t) = s ++ c_str t.
Proof.
  induction 1 as [|c s Hc _ IH]; [reflexivity|].
  cbn [app c_str]. apply is_nul_false in Hc. now rewrite Hc, IH.
Qed.

(** The tokens of a request line: a method, a space, a path, and then
    nothing or a space and whatever. *)
Lemma request_tokens_line (m p tail : bytes) :
  m <> [] -> p <> [] ->
  avoids SP m -> avoids SP p -> nul_free m -> nul_free p ->
  tail = [] \/ (exists t, tail = SP :: t) ->
  request_tokens (m ++ SP :: p ++ tail) = (Some m, Some p).
Proof.
  intros Hm0 Hp0 Hm Hp Hmz Hpz Htail. unfold request_tokens.
  rewrite (c_str_app m _ Hmz).
  change (c_str (SP :: p ++ tail)) with (SP :: c_str (p ++ tail)).
  rewrite (c_str_app p _ Hpz).
  rewrite (strtok_space m _ Hm0 Hm).
  destruct Htail as [->|[t ->]].
  - cbn [c_str]. rewrite app_nil_r. now rewrite (strtok_end p Hp0 Hp).
  - change (c_str (SP :: t)) with (SP :: c_str t).
    now rewrite (strtok_space p _ Hp0 Hp).
Qed.

(** Fewer than two tokens: spaces, at most one token, spaces. *)
Lemma request_tokens_short (i k : nat) (m : bytes) :
  avoids SP m ->
  snd (let '(a, saved) := Libc.strtok (repeat SP i ++ m ++ repeat SP k)
                                      (lit " ") in
       let '(b, _) := Libc.strtok saved (lit " ") in (a, b)) = None.
Proof.
  intros Hm. unfold Libc.strtok at 1. rewrite skip_delims_spaces.
  destruct m as [|c m].
  - cbn [app]. rewrite <- (app_nil_r (repeat SP k)), skip_delims_spaces.
    reflexivity.
  - change ((c :: m) ++ repeat SP k) with (c :: (m ++ repeat SP k)).
    rewrite skip_delims_token by (inversion Hm; assumption).
    change (c :: (m ++ repeat SP k)) with ((c :: m) ++ repeat SP k).
    destruct k as [|k].
    + cbn [repeat]. rewrite app_nil_r, (split_token_end _ Hm). reflexivity.
    + cbn [repeat]. rewrite (split_token_space _ _ Hm).
      now rewrite strtok_spaces.
Qed.

(** ** The parser, case by case *)

(** The request as it is before the search for [Content-Length:]. *)
Lemma parseHttpRequest_tokens (request m p : bytes) :
  request_tokens request = (Some m, Some p) ->
  parseHttpRequest (Some request) =
  let http := mkRequest (char_array MAX_METHOD_SIZE (firstn 9 m))
                        (char_array MAX_PATH_SIZE (firstn 99 p)) None 0 in
  match Libc.strstr request (lit "Content-Length:") with
  | Some start => http <- parse_body request start http ;; Ok (Some http)
  | None => Ok (Some http)
  end.
Proof.
  intros Htok. destruct (request_tokens_nul_free request m p Htok) as [Hm Hp].
  unfold parseHttpRequest. rewrite Htok.
  cbn [method path body body_size request_zero].
  change (MAX_METHOD_SIZE - 1)%nat with 9%nat.
  change (MAX_PATH_SIZE - 1)%nat with 99%nat.
  change (zeroed MAX_METHOD_SIZE) with (zeroed 10).
  change (zeroed MAX_PATH_SIZE) with (zeroed 100).
  now rewrite (strncpy_zeroed 9 m Hm), (strncpy_zeroed 99 p Hp).
Qed.

Lemma parseHttpRequest_line (m p tail : bytes) :
  m <> [] -> p <> [] ->
  avoids SP m -> avoids SP p -> nul_free m -> nul_free p ->
  tail = [] \/ (exists t, tail = SP :: t) ->
  Libc.strstr (m ++ SP :: p ++ tail) (lit "Content-Length:") = None ->
  parseHttpRequest (Some (m ++ SP :: p ++ tail)) =
  Ok (Some (mkRequest (char_array MAX_METHOD_SIZE (firstn 9 m))
                      (char_array MAX_PATH_SIZE (firstn 99 p)) None 0)).
Proof.
  intros Hm0 Hp0 Hm Hp Hmz Hpz Htail Hkey.
  rewrite (parseHttpRequest_tokens _ m p)
    by now apply request_tokens_line.
  cbv zeta. now rewrite Hkey.
Qed.

(** X1: a request that starts with a method, a space and a path (both not
    empty, without space and NUL), followed by nothing or by a space and
    anything, and that holds no [Content-Length:], parses to the request
    with the method cut at 9 bytes, the path cut at 99 bytes, a NULL body
    and the body size 0. *)
Theorem parse_request_line (m p tail : bytes) :
  m <> [] -> p <> [] ->
  avoids SP m -> avoids SP p -> nul_free m -> nul_free p ->
  tail = [] \/ (exists t, tail = SP :: t) ->
  Libc.strstr (m ++ SP :: p ++ tail) (lit "Content-Length:") = None ->
  parseHttpRequest (Some (m ++ SP :: p ++ tail)) =
  Ok (Some (mkRequest (char_array MAX_METHOD_SIZE (firstn 9 m))
                      (char_array MAX_PATH_SIZE (firstn 99 p)) None 0)).
Proof. apply parseHttpRequest_line. Qed.

Lemma parse_request_line_witness :
  parseHttpRequest
    (Some (lit "GET" ++ SP :: lit "/index.html"
           ++ (SP :: lit "HTTP/1.1" ++ CRLF ++ lit "Host: x" ++ CRLF ++ CRLF)))
  = Ok (Some (mkRequest (char_array MAX_METHOD_SIZE (firstn 9 (lit "GET")))
                        (char_array MAX_PATH_SIZE
                                    (firstn 99 (lit "/index.html")))
                        None 0)).
Proof.
  apply (parse_request_line (lit "GET") (lit "/index.html")
           (SP :: lit "HTTP/1.1" ++ CRLF ++ lit "Host: x" ++ CRLF ++ CRLF)).
  - discriminate.
  - discriminate.
  - apply avoidsb_spec. reflexivity.
  - apply avoidsb_spec. reflexivity.
  - apply nul_freeb_spec. reflexivity.
  - apply nul_freeb_spec. reflexivity.
  - right. eexists. reflexivity.
  - reflexivity.
Defined.

(** X2: a request with fewer than two tokens (spaces, at most one run of
    other bytes, spaces; the empty request too) parses to the zeroed
    request, and the connection gets no answer: the only effect is the
    report of an unsupported method with an empty name. *)
Theorem serve_fewer_than_two_tokens (fs : filesystem) (request m : bytes)
    (i k : nat) :
  c_str request = repeat SP i ++ m ++ repeat SP k ->
  avoids SP m ->
  parseHttpRequest (Some request) = Ok (Some request_zero) /\
  serve fs request = Ok [Stderr (lit "Unsupported HTTP method: " ++ [LF])] /\
  sent (serve fs request) = [].
Proof.
  intros Hshape Hm.
  assert (Hparse : parseHttpRequest (Some request) = Ok (Some request_zero)).
  { unfold parseHttpRequest.
    pose proof (request_tokens_short i k m Hm) as Hsnd.
    unfold request_tokens. rewrite Hshape.
    destruct (Libc.strtok (repeat SP i ++ m ++ repeat SP k) (lit " "))
      as [a saved].
    destruct (Libc.strtok saved (lit " ")) as [b saved'].
    cbn [snd] in Hsnd. subst b. now destruct a. }
  unfold serve. rewrite Hparse. repeat split.
Qed.

Lemma serve_fewer_than_two_tokens_witness :
  parseHttpRequest (Some (lit "  HELLO ")) = Ok (Some request_zero) /\
  serve demo_fs (lit "  HELLO ")
  = Ok [Stderr (lit "Unsupported HTTP method: " ++ [LF])] /\
  sent (serve demo_fs (lit "  HELLO ")) = [].
Proof.
  apply (serve_fewer_than_two_tokens demo_fs (lit "  HELLO ") (lit "HELLO")
           2 1).
  - reflexivity.
  - apply avoidsb_spec. reflexivity.
Defined.

(** X3: the parser faults exactly on the requests that have two tokens, a
    [Content-Length:] and a blank line; the connection that brings such a
    request faults with it, whatever the method and the files. *)
Theorem parse_faults_iff (request : bytes) :
  (parseHttpRequest (Some request) = Fault <->
   (exists m p, request_tokens request = (Some m, Some p)) /\
   Libc.strstr request (lit "Content-Length:") <> None /\
   Libc.strstr request (CRLF ++ CRLF) <> None) /\
  (forall fs, parseHttpRequest (Some request) = Fault ->
              serve fs request = Fault).
Proof.
  split; [apply parseHttpRequest_fault_iff|].
  intros fs H. unfold serve. now rewrite H.
Qed.

(** X4: the parser returns NULL for the NULL input and for no other. *)
Theorem parse_null_iff (request : option bytes) :
  parseHttpRequest request = Ok None <-> request = None.
Proof.
  split.
  - destruct request as [request|]; [|reflexivity].
    intros H. now apply parseHttpRequest_not_null in H.
  - now intros ->.
Qed.

(** X5: a request with two tokens and no blank line is returned with a
    NULL body; its body size is the number read at the first
    [Content-Length:], 0 when there is none or when no number is there. *)
Theorem parse_without_blank_line (request m p : bytes) :
  request_tokens request = (Some m, Some p) ->
  Libc.strstr request (CRLF ++ CRLF) = None ->
  parseHttpRequest (Some request) =
  Ok (Some (mkRequest
              (char_array MAX_METHOD_SIZE (firstn 9 m))
              (char_array MAX_PATH_SIZE (firstn 99 p))
              None
              match Libc.strstr request (lit "Content-Length:") with
              | Some start => Libc.sscanf_content_length start 0
              | None => 0
              end)).
Proof.
  intros Htok Hsep. rewrite (parseHttpRequest_tokens request m p Htok).
  cbv zeta.
  destruct (Libc.strstr request (lit "Content-Length:")) as [start|];
    [|reflexivity].
  now rewrite parse_body_no_separator by exact Hsep.
Qed.

Lemma parse_without_blank_line_witness :
  parseHttpRequest
    (Some (lit "POST /x HTTP/1.1" ++ CRLF ++ lit "Content-Length: 12" ++ CRLF))
  = Ok (Some (mkRequest (char_array MAX_METHOD_SIZE (lit "POST"))
                        (char_array MAX_PATH_SIZE (lit "/x")) None 12)).
Proof.
  apply (parse_without_blank_line
           (lit "POST /x HTTP/1.1" ++ CRLF ++ lit "Content-Length: 12" ++ CRLF)
           (lit "POST") (lit "/x")).
  - reflexivity.
  - reflexivity.
Defined.

(** ** The response builder, whatever the content *)

Lemma content_portion_c_str (r : HttpResponse) :
  Libc.find_sub (CRLF ++ CRLF) (c_str (status_message r) ++ CRLF) = None ->
  content_portion (response_format r) = Some (c_str (content r)).
Proof.
  intros Hsep. unfold content_portion, Libc.strstr.
  rewrite (c_str_id _ (response_format_nul_free r)).
  rewrite response_format_shape.
  rewrite find_separator_after_status;
    [| apply status_line_avoids;
       [reflexivity | exact digit_not_CR | discriminate]
     | exact Hsep].
  rewrite (find_sub_skip CR [LF; CR; LF])
    by apply print_zu_avoids, digit_not_CR.
  reflexivity.
Qed.

Lemma print_zu_mod (n : Z) : Libc.print_zu (n mod 2 ^ 64) = Libc.print_zu n.
Proof. unfold Libc.print_zu. now rewrite Z.mod_mod by lia. Qed.

Lemma reparsed_content_length_mod (r : HttpResponse) :
  Libc.find_sub (lit "Content-Length:") (c_str (status_message r)) = None ->
  reparsed_content_length (response_format r)
  = Some (content_length r mod 2 ^ 64).
Proof.
  intros Hkey. unfold reparsed_content_length, Libc.strstr.
  rewrite (c_str_id _ (response_format_nul_free r)).
  rewrite response_format_shape.
  assert (Hfind :
    Libc.find_sub (lit "Content-Length:")
      ((lit "HTTP/1.1 " ++ Libc.print_d (status_code r) ++ lit " ")
       ++ c_str (status_message r)
       ++ CR :: LF :: lit "Content-Type: text/html;charset=UTF-8" ++ CRLF
       ++ lit "Content-Length: " ++ Libc.print_zu (content_length r)
       ++ CR :: LF :: CR :: LF :: c_str (content r))
    = Some (lit "Content-Length: " ++ Libc.print_zu (content_length r)
            ++ CR :: LF :: CR :: LF :: c_str (content r))).
  { etransitivity.
    { apply (find_sub_skip "C"%char (lit "ontent-Length:")).
      apply status_line_avoids;
        [reflexivity | exact digit_not_C | discriminate]. }
    etransitivity.
    { apply find_sub_app_none; [exact Hkey|].
      cbn. intuition discriminate. }
    apply find_key_in_header. }
  rewrite Hfind. f_equal.
  unfold Libc.sscanf_content_length.
  assert (Hfree : nul_free (lit "Content-Length: "
                            ++ Libc.print_zu (content_length r)
                            ++ CR :: LF :: CR :: LF :: c_str (content r))).
  { apply nul_free_app. split; [apply nul_freeb_spec; reflexivity|].
    apply nul_free_app. split; [apply print_zu_avoids, digit_not_NUL|].
    repeat (constructor; [discriminate|]). apply c_str_nul_free. }
  rewrite (c_str_id _ Hfree).
  change (Libc.starts_with (lit "Content-Length:") (lit "Content-Length: " ++ ?x))
    with true.
  change (skipn (length (lit "Content-Length:")) (lit "Content-Length: " ++ ?x))
    with (" "%char :: x).
  cbv iota.
  rewrite <- print_zu_mod.
  rewrite (scan_print_zu _ CR); [reflexivity | | reflexivity].
  apply Z.mod_pos_bound. lia.
Qed.

(** X6: the string that the builder returns holds no NUL byte, so that
    the size it reports is the length that [strlen] gives of it, and that
    size is below [INT_MAX]; the builder returns NULL exactly when the
    formatted length is [INT_MAX] or more. *)
Theorem HttpResponseToString_size (r : HttpResponse) :
  match HttpResponseToString r with
  | Some (out, size) =>
      out = response_format r /\
      c_str out = out /\
      size = Z.of_nat (length (c_str out)) /\
      size < Libc.INT_MAX
  | None => Libc.INT_MAX <= Z.of_nat (length (response_format r))
  end.
Proof.
  unfold HttpResponseToString.
  destruct (Z.leb_spec (Z.of_nat (length (response_format r)) + 1)
                       Libc.INT_MAX) as [H|H]; [|lia].
  rewrite (c_str_id _ (response_format_nul_free r)).
  repeat split. lia.
Qed.

(** X7: when the status message gives no blank line before the end of the
    status line, what follows the first blank line of the serialized
    response is the content up to its first NUL byte, whatever
    [content_length] says. *)
Theorem serialized_body_is_c_string (r : HttpResponse) :
  Libc.find_sub (CRLF ++ CRLF) (c_str (status_message r) ++ CRLF) = None ->
  content_portion (response_format r) = Some (c_str (content r)).
Proof. apply content_portion_c_str. Qed.

Lemma serialized_body_is_c_string_witness :
  content_portion (response_format response_with_nul) = Some (lit "a").
Proof.
  apply (serialized_body_is_c_string response_with_nul). reflexivity.
Defined.

(** X8: for a status message that is plain, the field [Content-Length] of
    the serialized response reads back as [content_length] modulo 2^64,
    and the round trip holds exactly when that number is the length of the
    content up to its first NUL byte. *)
Theorem round_trip_iff (r : HttpResponse) :
  plain_status (c_str (status_message r)) ->
  reparsed_content_length (response_format r)
  = Some (content_length r mod 2 ^ 64) /\
  (round_trip r = true <->
   content_length r mod 2 ^ 64 = Z.of_nat (length (c_str (content r)))).
Proof.
  intros [Hsep Hkey].
  pose proof (reparsed_content_length_mod r Hkey) as Hfield.
  split; [exact Hfield|].
  unfold round_trip.
  rewrite (content_portion_c_str r Hsep), Hfield.
  apply Z.eqb_eq.
Qed.

Lemma round_trip_iff_witness :
  reparsed_content_length (response_format response_with_nul)
  = Some (content_length response_with_nul mod 2 ^ 64) /\
  (round_trip response_with_nul = true <->
   content_length response_with_nul mod 2 ^ 64
   = Z.of_nat (length (c_str (content response_with_nul)))).
Proof.
  apply (round_trip_iff response_with_nul). split; reflexivity.
Defined.

(** ** The debug printer *)

Lemma printer_unfold (str : bytes) :
  printStringWithEscapeChars str =
  flat_map (fun c =>
              (if Ascii.eqb c LF then lit "\n" else [])
              ++ (if Ascii.eqb c CR then lit "\r" else [c]))
           (c_str str)
  ++ [LF].
Proof. reflexivity. Qed.

(** X9: the debug printer never prints a carriage return nor a NUL byte,
    and its output ends with a line feed. *)
Theorem printer_output_shape (str : bytes) :
  avoids CR (printStringWithEscapeChars str) /\
  nul_free (printStringWithEscapeChars str) /\
  last (printStringWithEscapeChars str) NUL = LF.
Proof.
  rewrite printer_unfold.
  pose proof (c_str_nul_free str) as Hs.
  induction Hs as [|c s Hc _ IH].
  - repeat split; repeat constructor; discriminate.
  - destruct IH as (IH1 & IH2 & IH3).
    cbn [flat_map]. rewrite <- !app_assoc.
    split; [|split].
    + apply avoids_app. split; [|apply avoids_app; split; [|exact IH1]].
      * destruct (Ascii.eqb c LF); repeat constructor; discriminate.
      * destruct (Ascii.eqb_spec c CR);
          repeat constructor; [discriminate.. | assumption].
    + apply nul_free_app. split; [|apply nul_free_app; split; [|exact IH2]].
      * destruct (Ascii.eqb c LF); repeat constructor; discriminate.
      * destruct (Ascii.eqb c CR);
          repeat constructor; [discriminate.. | assumption].
    + rewrite !app_assoc. rewrite last_last. reflexivity.
Qed.

(** X10: a text without carriage return and line feed is printed as it
    is, followed by a line feed. *)
Theorem printer_plain_text (str : bytes) :
  avoids CR (c_str str) -> avoids LF (c_str str) ->
  printStringWithEscapeChars str = c_str str ++ [LF].
Proof.
  intros Hcr Hlf. rewrite printer_unfold. f_equal.
  induction Hcr as [|c s Hc _ IH]; [reflexivity|].
  inversion Hlf as [|? ? Hc' Hlf']; subst.
  cbn [flat_map]. apply Ascii.eqb_neq in Hc, Hc'. rewrite Hc, Hc'.
  cbn [app]. f_equal. apply IH, Hlf'.
Qed.

Lemma printer_plain_text_witness :
  printStringWithEscapeChars (lit "HTTP/1.1 200 OK") =
  c_str (lit "HTTP/1.1 200 OK") ++ [LF].
Proof.
  apply (printer_plain_text (lit "HTTP/1.1 200 OK"));
    apply avoidsb_spec; reflexivity.
Defined.

Lemma escape_byte_counts (c : ascii) :
  count_occ ascii_dec
    ((if Ascii.eqb c LF then lit "\n" else [])
     ++ (if Ascii.eqb c CR then lit "\r" else [c])) LF
  = count_occ ascii_dec [c] LF /\
  length ((if Ascii.eqb c LF then lit "\n" else [])
          ++ (if Ascii.eqb c CR then lit "\r" else [c]))
  = (1 + 2 * count_occ ascii_dec [c] LF + count_occ ascii_dec [c] CR)%nat.
Proof.
  destruct (Ascii.eqb_spec c LF) as [->|Hlf]; [split; reflexivity|].
  destruct (Ascii.eqb_spec c CR) as [->|Hcr]; [split; reflexivity|].
  cbn [app length].
  rewrite !count_occ_cons_neq by congruence.
  split; reflexivity.
Qed.

(** X11: the debug printer keeps every line feed of the text after the
    two bytes of its escape, and replaces every carriage return by the two
    bytes of its escape: the output has one line feed more than the text,
    and its length is the length of the text plus twice its line feeds
    plus its carriage returns plus one. *)
Theorem printer_counts (str : bytes) :
  count_occ ascii_dec (printStringWithEscapeChars str) LF
  = S (count_occ ascii_dec (c_str str) LF) /\
  length (printStringWithEscapeChars str)
  = (length (c_str str) + 2 * count_occ ascii_dec (c_str str) LF
     + count_occ ascii_dec (c_str str) CR + 1)%nat.
Proof.
  rewrite printer_unfold.
  rewrite count_occ_app, length_app.
  change (count_occ ascii_dec [LF] LF) with 1%nat.
  change (length [LF]) with 1%nat.
  induction (c_str str) as [|c s [IH1 IH2]]; [split; reflexivity|].
  cbn [flat_map]. rewrite count_occ_app, length_app.
  destruct (escape_byte_counts c) as [E1 E2]. rewrite E1, E2.
  change (c :: s) with ([c] ++ s).
  rewrite !count_occ_app, length_app.
  change (length [c]) with 1%nat.
  split; lia.
Qed.

(** ** The dispatcher, case by case *)

Lemma route_lookup_cases (request : HttpRequest)
    (routes : list RouteMapping) :
  (exists route, In route routes /\
                 c_str (path request) = c_str (rpath route)) \/
  (forall route, In route routes ->
                 c_str (path request) <> c_str (rpath route)).
Proof.
  induction routes as [|r routes [(route & Hin & E)|IH]].
  - right. intros route [].
  - left. exists route. split; [now right | exact E].
  - destruct (list_eq_dec ascii_dec (c_str (path request)) (c_str (rpath r)))
      as [E|E].
    + left. exists r. split; [now left | exact E].
    + right. intros route [<-|Hin]; [exact E | now apply IH].
Qed.

Lemma get_response_no_match (fs : filesystem) (request : HttpRequest) :
  (forall route, In route getRouteMappings ->
                 c_str (path request) <> c_str (rpath route)) ->
  get_response fs request = mkResponse 404 (lit "Not Found") 0 [NUL].
Proof.
  intros Hno. unfold get_response. apply route_scan_no_match.
  intros r Hr E. apply (Hno r Hr). now apply route_match_iff.
Qed.

(** X12: whatever the request and the files, the response that the
    dispatcher builds is 200 [OK], 404 [Not Found] or 500
    [Internal Server Error]; its [content_length] is the number of the
    bytes of its content, and the content is empty unless the status is
    200. *)
Theorem dispatcher_invariant (fs : filesystem) (request : HttpRequest) :
  let response := get_response fs request in
  response_invariant response /\
  ((status_code response = 200 /\ status_message response = lit "OK") \/
   (status_code response = 404 /\ status_message response = lit "Not Found" /\
    content response = [NUL] /\ content_length response = 0) \/
   (status_code response = 500 /\
    status_message response = lit "Internal Server Error" /\
    content response = [NUL] /\ content_length response = 0)).
Proof.
  cbv zeta.
  destruct (route_lookup_cases request getRouteMappings)
    as [(route & Hin & E)|Hno].
  - rewrite (get_response_match fs request route Hin E).
    destruct (fs (c_str (rlink route))) as [file|].
    + split; [exists file; split; reflexivity|]. left. split; reflexivity.
    + split; [exists []; split; reflexivity|].
      right. right. repeat split.
  - rewrite (get_response_no_match fs request Hno).
    split; [exists []; split; reflexivity|].
    right. left. repeat split.
Qed.

(** X13: the status of the response tells what the lookup found: 404
    exactly when no entry of the table has the path of the request, 200
    exactly when an entry has it and its file can be read, 500 exactly
    when an entry has it and its file cannot be read. *)
Theorem dispatcher_status_iff (fs : filesystem) (request : HttpRequest) :
  let response := get_response fs request in
  (status_code response = 404 <->
   forall route, In route getRouteMappings ->
                 c_str (path request) <> c_str (rpath route)) /\
  (status_code response = 200 <->
   exists route file,
     In route getRouteMappings /\
     c_str (path request) = c_str (rpath route) /\
     fs (c_str (rlink route)) = Some file) /\
  (status_code response = 500 <->
   exists route,
     In route getRouteMappings /\
     c_str (path request) = c_str (rpath route) /\
     fs (c_str (rlink route)) = None).
Proof.
  cbv zeta.
  destruct (route_lookup_cases request getRouteMappings)
    as [(route & Hin & E)|Hno].
  - pose proof (get_response_match fs request route Hin E) as Hr.
    destruct (fs (c_str (rlink route))) as [file|] eqn:Hfile; rewrite Hr;
      cbn [status_code]; (split; [|split]).
    + split; [discriminate|]. intros H. now elim (H route Hin).
    + split; [|reflexivity]. intros _. now exists route, file.
    + split; [discriminate|]. intros (route' & Hin' & E' & Hnone).
      pose proof (get_response_match fs request route' Hin' E') as Hr'.
      rewrite Hnone, Hr in Hr'. discriminate.
    + split; [discriminate|]. intros H. now elim (H route Hin).
    + split; [discriminate|]. intros (route' & file & Hin' & E' & Hsome).
      pose proof (get_response_match fs request route' Hin' E') as Hr'.
      rewrite Hsome, Hr in Hr'. discriminate.
    + split; [|reflexivity]. intros _. now exists route.
  - rewrite (get_response_no_match fs request Hno). cbn [status_code].
    split; [|split].
    + split; [intros _; exact Hno | reflexivity].
    + split; [discriminate|]. intros (route & file & Hin & E & _).
      now elim (Hno route Hin).
    + split; [discriminate|]. intros (route & Hin & E & _).
      now elim (Hno route Hin).
Qed.

(** ** What is sent *)

Lemma handleGetRequest_sending (fs : filesystem) (request : HttpRequest) :
  Z.of_nat (length (response_format (get_response fs request)))
  < Libc.INT_MAX ->
  handleGetRequest fs request
  = Ok (get_log fs request
        ++ sending (response_format (get_response fs request))).
Proof.
  intros Hlen. unfold handleGetRequest.
  rewrite (HttpResponseToString_returns _ Hlen).
  now rewrite Nat2Z.id, firstn_all.
Qed.

(** X14: for every request whose path is the path of no entry of the
    table, the handler sends the fixed 404 message, whole, in one [send],
    and logs it. *)
Theorem not_found_bytes (fs : filesystem) (request : HttpRequest) :
  (forall route, In route getRouteMappings ->
                 c_str (path request) <> c_str (rpath route)) ->
  handleGetRequest fs request = Ok (sending not_found_message).
Proof.
  intros Hno. unfold handleGetRequest.
  rewrite (get_response_no_match fs request Hno).
  rewrite (get_log_no_match fs request Hno). reflexivity.
Qed.

Lemma not_found_bytes_witness :
  handleGetRequest demo_fs (request_of (lit "GET") (lit "/nope"))
  = Ok (sending not_found_message).
Proof.
  apply (not_found_bytes demo_fs (request_of (lit "GET") (lit "/nope"))).
  intros route [<-|[<-|[]]]; vm_compute; discriminate.
Defined.

(** X15: for every request whose path is the path of an entry of the
    table whose file cannot be opened, the handler first lets [ReadFile]
    report the file on the error stream, then sends the fixed 500 message,
    whole, in one [send], and logs it. *)
Theorem server_error_bytes (fs : filesystem) (request : HttpRequest)
    (route : RouteMapping) :
  In route getRouteMappings ->
  c_str (path request) = c_str (rpath route) ->
  fs (c_str (rlink route)) = None ->
  handleGetRequest fs request
  = Ok (Stderr (lit "Error opening file: " ++ c_str (rlink route) ++ [LF])
        :: sending server_error_message).
Proof.
  intros Hin E Hnone. unfold handleGetRequest.
  rewrite (get_response_match fs request route Hin E), Hnone.
  rewrite (get_log_match fs request route Hin E).
  unfold ReadFile_stderr. rewrite Hnone. reflexivity.
Qed.

Lemma server_error_bytes_witness :
  handleGetRequest demo_fs (request_of (lit "GET") (lit "/test"))
  = Ok (Stderr (lit "Error opening file: " ++ c_str (rlink test_route)
                ++ [LF])
        :: sending server_error_message).
Proof.
  apply (server_error_bytes demo_fs (request_of (lit "GET") (lit "/test"))
           test_route).
  - right. left. reflexivity.
  - vm_compute. reflexivity.
  - vm_compute. reflexivity.
Defined.

Lemma route_path_token (route : RouteMapping) :
  In route getRouteMappings ->
  c_str (rpath route) <> [] /\
  avoids SP (c_str (rpath route)) /\
  firstn 99 (c_str (rpath route)) = c_str (rpath route).
Proof.
  intros [<-|[<-|[]]]; (split; [discriminate|]);
    (split; [apply avoidsb_spec|]); reflexivity.
Qed.

(** The request that the parser makes of a [GET] line. *)
Lemma parse_get_line (p tail : bytes) :
  p <> [] -> avoids SP p -> nul_free p ->
  tail = [] \/ (exists t, tail = SP :: t) ->
  Libc.strstr (lit "GET" ++ SP :: p ++ tail) (lit "Content-Length:") = None ->
  parseHttpRequest (Some (lit "GET" ++ SP :: p ++ tail)) =
  Ok (Some (mkRequest (char_array MAX_METHOD_SIZE (lit "GET"))
                      (char_array MAX_PATH_SIZE (firstn 99 p)) None 0)).
Proof.
  intros Hp0 Hp Hpz Htail Hkey.
  apply (parseHttpRequest_line (lit "GET") p tail); try assumption.
  - discriminate.
  - apply avoidsb_spec. reflexivity.
  - apply nul_freeb_spec. reflexivity.
Qed.

(** X16: a connection that brings [GET], a space, the path of an entry of
    the table, and nothing more or a space and anything without
    [Content-Length:], is sent the 200 message for the file of the entry
    when that file can be read, holds no NUL byte and makes a message that
    shorter than [INT_MAX] bytes: the header with the size of the file,
    then the file, byte for byte. *)
Theorem serve_get_file (fs : filesystem) (route : RouteMapping)
    (file tail : bytes) :
  In route getRouteMappings ->
  fs (c_str (rlink route)) = Some file ->
  nul_free file ->
  Z.of_nat (length (ok_message file)) < Libc.INT_MAX ->
  tail = [] \/ (exists t, tail = SP :: t) ->
  Libc.strstr (lit "GET" ++ SP :: c_str (rpath route) ++ tail)
              (lit "Content-Length:") = None ->
  serve fs (lit "GET" ++ SP :: c_str (rpath route) ++ tail)
  = Ok (sending (ok_message file)) /\
  ok_message file =
  lit "HTTP/1.1 200 OK" ++ CRLF
  ++ lit "Content-Type: text/html;charset=UTF-8" ++ CRLF
  ++ lit "Content-Length: " ++ Libc.print_zu (Z.of_nat (length file)) ++ CRLF
  ++ CRLF ++ file.
Proof.
  intros Hin Hfile Hfree Hlen Htail Hkey.
  destruct (route_path_token route Hin) as (Hp0 & Hp & Hcut).
  split.
  - pose proof (parse_get_line _ tail Hp0 Hp (c_str_nul_free _) Htail Hkey)
      as Hparse.
    unfold serve. change (@Some bytes) with (@Some (list ascii)).
    rewrite Hparse. cbn [bind]. rewrite Hcut.
    unfold handleHttpRequest. cbn [method].
    change (Libc.strncmp (char_array MAX_METHOD_SIZE (lit "GET")) (lit "GET") 3
            =? 0) with true.
    cbv iota.
    assert (E : c_str (path (mkRequest (char_array MAX_METHOD_SIZE (lit "GET"))
                               (char_array MAX_PATH_SIZE (c_str (rpath route)))
                               None 0))
                = c_str (rpath route)).
    { cbn [path]. apply c_str_char_array; [apply c_str_nul_free|].
      now apply route_path_short. }
    pose proof (get_response_match fs _ route Hin E) as Hr.
    pose proof (get_log_match fs _ route Hin E) as Hl.
    unfold ReadFile_stderr in Hl. rewrite Hfile in Hr, Hl.
    rewrite handleGetRequest_sending; rewrite Hr; [|exact Hlen].
    rewrite Hl. reflexivity.
  - unfold ok_message. now rewrite (c_str_app_nul file []).
Qed.

Lemma serve_get_file_witness :
  serve demo_fs
        (lit "GET" ++ SP :: c_str (rpath index_route)
         ++ (SP :: lit "HTTP/1.1" ++ CRLF ++ CRLF))
  = Ok (sending (ok_message index_html)) /\
  ok_message index_html =
  lit "HTTP/1.1 200 OK" ++ CRLF
  ++ lit "Content-Type: text/html;charset=UTF-8" ++ CRLF
  ++ lit "Content-Length: " ++ Libc.print_zu (Z.of_nat (length index_html))
  ++ CRLF ++ CRLF ++ index_html.
Proof.
  apply (serve_get_file demo_fs index_route index_html
           (SP :: lit "HTTP/1.1" ++ CRLF ++ CRLF)).
  - left. reflexivity.
  - reflexivity.
  - apply nul_freeb_spec. reflexivity.
  - vm_compute. reflexivity.
  - right. eexists. reflexivity.
  - reflexivity.
Defined.

(** X17: what follows the path of a request line (the version, the
    headers) does not change what the connection gets, as long as it
    brings no [Content-Length:]. *)
Theorem serve_ignores_rest (fs : filesystem) (m p t1 t2 : bytes) :
  m <> [] -> p <> [] ->
  avoids SP m -> avoids SP p -> nul_free m -> nul_free p ->
  Libc.strstr (m ++ SP :: p ++ SP :: t1) (lit "Content-Length:") = None ->
  Libc.strstr (m ++ SP :: p ++ SP :: t2) (lit "Content-Length:") = None ->
  serve fs (m ++ SP :: p ++ SP :: t1) = serve fs (m ++ SP :: p ++ SP :: t2).
Proof.
  intros Hm0 Hp0 Hm Hp Hmz Hpz H1 H2.
  assert (P1 := parseHttpRequest_line m p (SP :: t1) Hm0 Hp0 Hm Hp Hmz Hpz
                  (or_intror (ex_intro _ t1 eq_refl)) H1).
  assert (P2 := parseHttpRequest_line m p (SP :: t2) Hm0 Hp0 Hm Hp Hmz Hpz
                  (or_intror (ex_intro _ t2 eq_refl)) H2).
  unfold serve. change (@Some bytes) with (@Some (list ascii)).
  now rewrite P1, P2.
Qed.

Lemma serve_ignores_rest_witness :
  serve demo_fs (lit "GET" ++ SP :: lit "/" ++ SP :: lit "HTTP/1.1")
  = serve demo_fs (lit "GET" ++ SP :: lit "/"
                   ++ SP :: lit "FTP/9" ++ CRLF ++ lit "Host: y" ++ CRLF ++ CRLF).
Proof.
  apply (serve_ignores_rest demo_fs (lit "GET") (lit "/")).
  - discriminate.
  - discriminate.
  - apply avoidsb_spec. reflexivity.
  - apply avoidsb_spec. reflexivity.
  - apply nul_freeb_spec. reflexivity.
  - apply nul_freeb_spec. reflexivity.
  - reflexivity.
  - reflexivity.
Defined.

(** ** The command line, in full *)

(** X18: [main] keeps serving exactly when there are two arguments, the
    first one is a dotted quad, the value of [atoi] on the second one, cut
    to 16 bits, is in the interval from 1 to 65534, and [socket], [bind]
    and [listen] succeed; in every other case the exit status is 1.  The
    exit status 0 is never given. *)
Theorem main_outcome (env : Cli.sockets) (argv : list bytes) :
  (Cli.main env argv = None <->
   length argv = 3%nat /\
   Cli.inet_pton (nth 1 argv []) <> None /\
   0 < Libc.atoi (nth 2 argv []) mod 2 ^ 16 <= 65534 /\
   Cli.socket_ok env = true /\
   Cli.bind_ok env = true /\
   Cli.listen_ok env = true) /\
  (Cli.main env argv <> None -> Cli.main env argv = Some Cli.EXIT_FAILURE).
Proof.
  unfold Cli.main, Cli.startHttpServer.
  destruct (Z.eqb_spec (Z.of_nat (length argv)) 3) as [Hargc|Hargc];
    cbn [negb].
  2:{ split; [|reflexivity].
      split; [discriminate | intros (H & _); lia]. }
  destruct (Cli.inet_pton (nth 1 argv [])) as [addr|].
  2:{ split; [|reflexivity].
      split; [discriminate | intros (_ & H & _); now elim H]. }
  destruct (Z.leb_spec (Libc.atoi (nth 2 argv []) mod 2 ^ 16) 0) as [H0|H0];
    cbn [orb].
  { split; [|reflexivity].
    split; [discriminate | intros (_ & _ & H & _); lia]. }
  destruct (Z.ltb_spec 65534 (Libc.atoi (nth 2 argv []) mod 2 ^ 16))
    as [H1|H1].
  { split; [|reflexivity].
    split; [discriminate | intros (_ & _ & H & _); lia]. }
  destruct (Cli.socket_ok env) eqn:Es, (Cli.bind_ok env) eqn:Eb,
           (Cli.listen_ok env) eqn:El; cbn [negb].
  1:{ split; [|intros H; now elim H].
      split; [|reflexivity].
      intros _. repeat split; try lia. discriminate. }
  all: split; [|reflexivity].
  all: split; [discriminate|].
  all: intros (_ & _ & _ & A & B & C); discriminate.
Qed.

Lemma decimal_nul_free (n : Z) : nul_free (decimal n).
Proof. apply dec_digits_Forall; [exact digit_not_NUL | constructor]. Qed.

(** [atoi] reads a decimal numeral back, as an [int]. *)
Lemma atoi_decimal (n : Z) :
  0 <= n <= Libc.LONG_MAX -> Libc.atoi (decimal n) = Libc.wrap_int n.
Proof.
  unfold Libc.LONG_MAX. intros Hn. unfold Libc.atoi.
  rewrite (c_str_id _ (decimal_nul_free n)).
  assert (Eread : Libc.read_digits (decimal n) 0 = n).
  { unfold decimal. rewrite read_dec_digits; [reflexivity|].
    simpl Z.of_nat. lia. }
  unfold decimal in *.
  destruct (dec_digits_head 18 n []) as (d & tail & Hd & Ehead).
  destruct (digit_char_facts d Hd) as (Hdig & _ & Hsp & Hminus & Hplus & _).
  rewrite Ehead in *. cbn [Libc.skip_space]. rewrite Hsp.
  unfold Libc.read_signed. rewrite Hminus, Hplus, Hdig, Eread.
  unfold Libc.LONG_MAX. now rewrite Z.min_r by lia.
Qed.

Lemma wrap_int_mod (z : Z) : Libc.wrap_int z mod 2 ^ 16 = z mod 2 ^ 16.
Proof.
  unfold Libc.wrap_int.
  rewrite (Z.mod_eq (z + 2 ^ 31) (2 ^ 32)) by lia.
  replace (z + 2 ^ 31 - 2 ^ 32 * ((z + 2 ^ 31) / 2 ^ 32) - 2 ^ 31)
    with (z + (- ((z + 2 ^ 31) / 2 ^ 32) * 2 ^ 16) * 2 ^ 16) by lia.
  apply Z.mod_add. lia.
Qed.

(** X19: with a dotted quad as the address and sockets that work, the
    port given as a decimal numeral [n] (up to [LONG_MAX]) is accepted
    exactly when [n] modulo 65536 is in the interval from 1 to 65534, and
    gives the exit status 1 otherwise: every port from 1 to 65534 is
    accepted, and so is every number that is one of them modulo 65536. *)
Theorem main_decimal_port (prog ip : bytes) (addr : list Z) (n : Z) :
  Cli.inet_pton ip = Some addr ->
  0 <= n <= Libc.LONG_MAX ->
  Libc.atoi (decimal n) mod 2 ^ 16 = n mod 2 ^ 16 /\
  (0 < n mod 2 ^ 16 <= 65534 ->
   Cli.main all_sockets_ok [prog; ip; decimal n] = None) /\
  (n mod 2 ^ 16 = 0 \/ n mod 2 ^ 16 = 65535 ->
   forall env,
     Cli.main env [prog; ip; decimal n] = Some Cli.EXIT_FAILURE).
Proof.
  intros Hip Hn.
  assert (Hport : Libc.atoi (decimal n) mod 2 ^ 16 = n mod 2 ^ 16).
  { rewrite (atoi_decimal n Hn). apply wrap_int_mod. }
  split; [exact Hport|]. split.
  - intros Hrange. unfold Cli.main. cbn [length nth Z.of_nat].
    rewrite Hip, Hport. cbn [negb Z.eqb Pos.of_succ_nat Pos.succ Pos.eqb].
    destruct (Z.leb_spec (n mod 2 ^ 16) 0); [lia|].
    destruct (Z.ltb_spec 65534 (n mod 2 ^ 16)); [lia|].
    reflexivity.
  - intros Hout env. unfold Cli.main. cbn [length nth Z.of_nat].
    rewrite Hip, Hport. cbn [negb Z.eqb Pos.of_succ_nat Pos.succ Pos.eqb].
    destruct (Z.leb_spec (n mod 2 ^ 16) 0); [reflexivity|].
    destruct (Z.ltb_spec 65534 (n mod 2 ^ 16)); [reflexivity|].
    lia.
Qed.

Lemma main_decimal_port_witness :
  Libc.atoi (decimal 73728) mod 2 ^ 16 = 73728 mod 2 ^ 16 /\
  (0 < 73728 mod 2 ^ 16 <= 65534 ->
   Cli.main all_sockets_ok [lit "./server"; lit "127.0.0.1"; decimal 73728]
   = None) /\
  (73728 mod 2 ^ 16 = 0 \/ 73728 mod 2 ^ 16 = 65535 ->
   forall env,
     Cli.main env [lit "./server"; lit "127.0.0.1"; decimal 73728]
     = Some Cli.EXIT_FAILURE).
Proof.
  apply (main_decimal_port (lit "./server") (lit "127.0.0.1") [127; 0; 0; 1]).
  - reflexivity.
  - unfold Libc.LONG_MAX. lia.
Defined.

(** ** The receive buffer *)

Lemma char_array_split (n : nat) (s : bytes) :
  char_array n s = firstn n s ++ repeat NUL (n - length s).
Proof.
  unfold char_array. rewrite firstn_app, firstn_repeat.
  do 2 f_equal. lia.
Qed.

Lemma char_array_firstn (n : nat) (s : bytes) :
  char_array n (firstn n s) = char_array n s.
Proof.
  rewrite !char_array_split, firstn_firstn, length_firstn.
  replace (min n n) with n by lia.
  do 2 f_equal. lia.
Qed.

Lemma c_str_cut (s t : bytes) : c_str (s ++ NUL :: t) = c_str s.
Proof.
  induction s as [|c s IH]; [reflexivity|].
  cbn [app c_str]. destruct (is_nul c); [reflexivity | now rewrite IH].
Qed.

Lemma c_str_char_array_short (n : nat) (s : bytes) :
  (length s < n)%nat -> c_str (char_array n s) = c_str s.
Proof.
  intros H. rewrite char_array_split, firstn_all2 by lia.
  replace (n - length s)%nat with (S (n - length s - 1)) by lia.
  apply c_str_cut.
Qed.

Lemma nul_free_repeat (k : nat) : nul_free (repeat NUL k) <-> k = 0%nat.
Proof.
  split.
  - destruct k as [|k]; [reflexivity|].
    intros H. inversion H as [|? ? Hc _]. now elim Hc.
  - intros ->. constructor.
Qed.

(** The buffer holds no NUL byte exactly when the data fill it and hold
    none in its 30000 bytes. *)
Lemma recv_buffer_unterminated (data : bytes) :
  nul_freeb (recv_buffer data) = true <->
  (BUFFER_SIZE <= length data)%nat /\ nul_free (firstn BUFFER_SIZE data).
Proof.
  unfold recv_buffer. rewrite nul_freeb_spec, char_array_split, nul_free_app.
  rewrite nul_free_repeat. split; intros [H1 H2]; split; try assumption; lia.
Qed.

(** The functions of the server read a buffer as the string it holds. *)
Lemma parseHttpRequest_c_str (request : bytes) :
  parseHttpRequest (Some (c_str request)) = parseHttpRequest (Some request).
Proof.
  unfold parseHttpRequest, request_tokens, parse_body, Libc.strstr.
  now rewrite c_str_idem.
Qed.

Lemma serve_c_str (fs : filesystem) (buffer : bytes) :
  serve fs (c_str buffer) = serve fs buffer.
Proof.
  unfold serve. change (@Some bytes) with (@Some (list ascii)).
  now rewrite parseHttpRequest_c_str.
Qed.

Lemma printer_c_str (str : bytes) :
  printStringWithEscapeChars (c_str str) = printStringWithEscapeChars str.
Proof. rewrite !printer_unfold. now rewrite c_str_idem. Qed.

(** ** The accept loop *)

Lemma loop_sent_app (a b : list server_event) :
  loop_sent (a ++ b) = loop_sent a ++ loop_sent b.
Proof. apply flat_map_app. Qed.

Lemma loop_sent_handler (evs : list event) :
  loop_sent (map Ev evs) = sent (Ok evs).
Proof.
  unfold loop_sent, sent.
  induction evs as [|e evs IH]; [reflexivity|].
  cbn [map flat_map]. rewrite IH. now destruct e.
Qed.

Lemma loop_closes_app (a b : list server_event) :
  loop_closes (a ++ b) = (loop_closes a + loop_closes b)%nat.
Proof. unfold loop_closes. now rewrite filter_app, length_app. Qed.

Lemma loop_closes_handler (evs : list event) : loop_closes (map Ev evs) = 0%nat.
Proof. induction evs as [|e evs IH]; [reflexivity | exact IH]. Qed.

(** One turn of the loop on a connection that is harmless. *)
Lemma accept_loop_harmless (fs : filesystem) (c : connection)
    (conns : list connection) :
  harmless fs c = true ->
  snd (accept_loop fs (c :: conns)) = snd (accept_loop fs conns) /\
  loop_sent (fst (accept_loop fs (c :: conns)))
  = answer fs c ++ loop_sent (fst (accept_loop fs conns)) /\
  loop_closes (fst (accept_loop fs (c :: conns)))
  = ((if accepted c then 1 else 0)
     + loop_closes (fst (accept_loop fs conns)))%nat.
Proof.
  intros Hc. cbn [accept_loop].
  destruct c as [why|why|data beyond]; cbn [harmless answer accepted] in *.
  - destruct (accept_loop fs conns) as [evs e]. repeat split.
  - destruct (accept_loop fs conns) as [evs e]. repeat split.
  - destruct (serve fs (recv_buffer data ++ beyond)) as [evs'|];
      [|discriminate].
    destruct (accept_loop fs conns) as [evs e]. cbn [fst snd].
    split; [reflexivity|]. split.
    + rewrite !loop_sent_app, loop_sent_handler. reflexivity.
    + rewrite !loop_closes_app, loop_closes_handler. reflexivity.
Qed.

(** One turn of the loop on a connection on which the handlers fault. *)
Lemma accept_loop_harmful (fs : filesystem) (c : connection)
    (conns : list connection) :
  harmless fs c = false ->
  accept_loop fs (c :: conns) = accept_loop fs [c] /\
  snd (accept_loop fs (c :: conns)) = Crashed /\
  loop_sent (fst (accept_loop fs (c :: conns))) = [].
Proof.
  intros Hc. cbn [accept_loop].
  destruct c as [why|why|data beyond]; cbn [harmless] in Hc;
    try discriminate.
  destruct (serve fs (recv_buffer data ++ beyond)) as [evs'|];
    [discriminate|].
  repeat split.
Qed.

Lemma accept_loop_all_harmless (fs : filesystem) (conns : list connection) :
  forallb (harmless fs) conns = true ->
  snd (accept_loop fs conns) = Blocked /\
  loop_sent (fst (accept_loop fs conns)) = flat_map (answer fs) conns /\
  loop_closes (fst (accept_loop fs conns)) = length (filter accepted conns).
Proof.
  induction conns as [|c conns IH]; [intros _; repeat split|].
  cbn [forallb]. intros H. apply andb_prop in H. destruct H as [Hc Hrest].
  destruct (IH Hrest) as (IH0 & IH1 & IH2).
  destruct (accept_loop_harmless fs c conns Hc) as (E0 & E1 & E2).
  rewrite E0, E1, E2, IH0, IH1, IH2. cbn [flat_map filter].
  split; [reflexivity|]. split; [reflexivity|]. now destruct (accepted c).
Qed.

Lemma accept_loop_prefix (fs : filesystem) (before : list connection)
    (c : connection) (after after' : list connection) :
  harmless fs c = false ->
  accept_loop fs (before ++ c :: after) = accept_loop fs (before ++ c :: after').
Proof.
  intros Hc. induction before as [|b before IH].
  - cbn [app].
    destruct (accept_loop_harmful fs c after Hc) as [-> _].
    now destruct (accept_loop_harmful fs c after' Hc) as [-> _].
  - cbn [app accept_loop]. rewrite IH. reflexivity.
Qed.

(** Harmless connections before the others: their answers come first
    and the end is the end of the rest. *)
Lemma accept_loop_app (fs : filesystem) (before rest : list connection) :
  forallb (harmless fs) before = true ->
  snd (accept_loop fs (before ++ rest)) = snd (accept_loop fs rest) /\
  loop_sent (fst (accept_loop fs (before ++ rest)))
  = flat_map (answer fs) before ++ loop_sent (fst (accept_loop fs rest)).
Proof.
  induction before as [|c before IH]; [intros _; split; reflexivity|].
  cbn [forallb]. intros H. apply andb_prop in H. destruct H as [Hc Hrest].
  destruct (IH Hrest) as [IH0 IH1].
  change ((c :: before) ++ rest) with (c :: (before ++ rest)).
  destruct (accept_loop_harmless fs c (before ++ rest) Hc) as (E0 & E1 & _).
  rewrite E0, E1, IH0, IH1. cbn [flat_map].
  now rewrite app_assoc.
Qed.

(** X20: when on every connection of a run the handlers do not fault
    ([accept] or [recv] failed, or parsing and handling what was received
    go through), the run comes back to [accept] after the last one; what
    was sent is, connection after connection, the answer to that
    connection alone, and the client socket was closed once for every
    connection that [accept] returned. *)
Theorem accept_loop_goes_on (fs : filesystem) (conns : list connection) :
  forallb (harmless fs) conns = true ->
  snd (accept_loop fs conns) = Blocked /\
  loop_sent (fst (accept_loop fs conns)) = flat_map (answer fs) conns /\
  loop_closes (fst (accept_loop fs conns)) = length (filter accepted conns).
Proof. apply accept_loop_all_harmless. Qed.

Lemma accept_loop_goes_on_witness :
  snd (accept_loop demo_fs [Received raw_get []; AcceptError (lit "EINTR");
                            RecvError (lit "ECONNRESET");
                            Received raw_getx []])
  = Blocked /\
  loop_sent (fst (accept_loop demo_fs
                    [Received raw_get []; AcceptError (lit "EINTR");
                     RecvError (lit "ECONNRESET"); Received raw_getx []]))
  = flat_map (answer demo_fs)
             [Received raw_get []; AcceptError (lit "EINTR");
              RecvError (lit "ECONNRESET"); Received raw_getx []] /\
  loop_closes (fst (accept_loop demo_fs
                      [Received raw_get []; AcceptError (lit "EINTR");
                       RecvError (lit "ECONNRESET"); Received raw_getx []]))
  = length (filter accepted
              [Received raw_get []; AcceptError (lit "EINTR");
               RecvError (lit "ECONNRESET"); Received raw_getx []]).
Proof.
  apply (accept_loop_goes_on demo_fs
           [Received raw_get []; AcceptError (lit "EINTR");
            RecvError (lit "ECONNRESET"); Received raw_getx []]).
  vm_compute. reflexivity.
Defined.

(** X21: a connection on whose request the parser or the handlers fault
    ends the run: the run stops there, whatever comes after it changes
    nothing and is never answered; when the connections before it are
    harmless, they are all that was answered. *)
Theorem accept_loop_stops (fs : filesystem) (before : list connection)
    (data beyond : bytes) (after : list connection) :
  serve fs (recv_buffer data ++ beyond) = Fault ->
  accept_loop fs (before ++ Received data beyond :: after)
  = accept_loop fs (before ++ [Received data beyond]) /\
  (forallb (harmless fs) before = true ->
   snd (accept_loop fs (before ++ Received data beyond :: after)) = Crashed /\
   loop_sent (fst (accept_loop fs (before ++ Received data beyond :: after)))
   = flat_map (answer fs) before).
Proof.
  intros Hfault.
  assert (Hc : harmless fs (Received data beyond) = false).
  { cbn [harmless]. now rewrite Hfault. }
  split; [now apply accept_loop_prefix|].
  intros Hbefore.
  destruct (accept_loop_app fs before (Received data beyond :: after) Hbefore)
    as [E0 E1].
  destruct (accept_loop_harmful fs (Received data beyond) after Hc)
    as (_ & F0 & F1).
  rewrite E0, E1, F0, F1. now rewrite app_nil_r.
Qed.

Lemma accept_loop_stops_witness :
  accept_loop demo_fs ([Received raw_get []] ++ Received raw_post []
                       :: [Received raw_get []; Received raw_get []])
  = accept_loop demo_fs ([Received raw_get []] ++ [Received raw_post []]) /\
  (forallb (harmless demo_fs) [Received raw_get []] = true ->
   snd (accept_loop demo_fs ([Received raw_get []] ++ Received raw_post []
                             :: [Received raw_get []; Received raw_get []]))
   = Crashed /\
   loop_sent (fst (accept_loop demo_fs
                     ([Received raw_get []] ++ Received raw_post []
                      :: [Received raw_get []; Received raw_get []])))
   = flat_map (answer demo_fs) [Received raw_get []]).
Proof.
  apply (accept_loop_stops demo_fs [Received raw_get []] raw_post []
           [Received raw_get []; Received raw_get []]).
  vm_compute. reflexivity.
Defined.

(** X22: the bytes that a connection brings beyond the 30000 of the
    buffer are lost without a trace: the run is the run on the first 30000
    bytes. *)
Theorem accept_loop_truncates (fs : filesystem) (before : list connection)
    (data beyond : bytes) (after : list connection) :
  accept_loop fs (before ++ Received data beyond :: after)
  = accept_loop fs
      (before ++ Received (firstn BUFFER_SIZE data) beyond :: after).
Proof.
  induction before as [|b before IH].
  - cbn [app accept_loop]. unfold recv_buffer.
    now rewrite char_array_firstn.
  - cbn [app accept_loop]. now rewrite IH.
Qed.

Lemma c_str_app_terminated (s t : bytes) :
  nul_freeb s = false -> c_str (s ++ t) = c_str s.
Proof.
  induction s as [|c s IH]; [discriminate|].
  cbn [nul_freeb forallb app c_str].
  destruct (is_nul c); [reflexivity|].
  cbn [negb andb]. intros H. f_equal. now apply IH.
Qed.

(** X23: the memory beyond the buffer is read only when the connection
    brings 30000 bytes or more with no NUL byte among the first 30000: in
    every other case the run does not depend on what that memory holds. *)
Theorem accept_loop_within_buffer (fs : filesystem)
    (before : list connection) (data beyond beyond' : bytes)
    (after : list connection) :
  (length data < BUFFER_SIZE)%nat \/ ~ nul_free (firstn BUFFER_SIZE data) ->
  accept_loop fs (before ++ Received data beyond :: after)
  = accept_loop fs (before ++ Received data beyond' :: after).
Proof.
  intros Hdata.
  assert (Hnul : nul_freeb (recv_buffer data) = false).
  { destruct (nul_freeb (recv_buffer data)) eqn:H; [|reflexivity].
    apply recv_buffer_unterminated in H. destruct H as [H1 H2].
    destruct Hdata as [Hdata|Hdata]; [lia | contradiction]. }
  assert (E : forall b, c_str (recv_buffer data ++ b)
                        = c_str (recv_buffer data))
    by (intros b; now apply c_str_app_terminated).
  induction before as [|b before IH].
  - cbn [app accept_loop].
    rewrite <- (printer_c_str (recv_buffer data ++ beyond)).
    rewrite <- (printer_c_str (recv_buffer data ++ beyond')).
    rewrite <- (serve_c_str fs (recv_buffer data ++ beyond)).
    rewrite <- (serve_c_str fs (recv_buffer data ++ beyond')).
    now rewrite !E.
  - cbn [app accept_loop]. now rewrite IH.
Qed.

Lemma accept_loop_within_buffer_witness :
  accept_loop demo_fs ([] ++ Received raw_get (lit "GET /test") :: [])
  = accept_loop demo_fs ([] ++ Received raw_get [] :: []).
Proof.
  apply (accept_loop_within_buffer demo_fs [] raw_get).
  left. apply Nat.ltb_lt. vm_compute. reflexivity.
Defined.

(** X24: a connection that brings fewer than 30000 bytes is handled as
    the string that these bytes hold: the zeroes that fill the buffer end
    the string, the printer and the handlers see the data up to their
    first NUL byte, and the buffer is never read past its end. *)
Theorem recv_buffer_reads_data (fs : filesystem) (data : bytes) :
  (length data < BUFFER_SIZE)%nat ->
  c_str (recv_buffer data) = c_str data /\
  nul_freeb (recv_buffer data) = false /\
  printStringWithEscapeChars (recv_buffer data)
  = printStringWithEscapeChars data /\
  serve fs (recv_buffer data) = serve fs data.
Proof.
  intros Hlen.
  assert (E : c_str (recv_buffer data) = c_str data)
    by now apply c_str_char_array_short.
  split; [exact E|]. split; [|split].
  - destruct (nul_freeb (recv_buffer data)) eqn:H; [|reflexivity].
    apply recv_buffer_unterminated in H. lia.
  - now rewrite <- printer_c_str, E, printer_c_str.
  - now rewrite <- serve_c_str, E, serve_c_str.
Qed.

Lemma recv_buffer_reads_data_witness :
  c_str (recv_buffer raw_get) = c_str raw_get /\
  nul_freeb (recv_buffer raw_get) = false /\
  printStringWithEscapeChars (recv_buffer raw_get)
  = printStringWithEscapeChars raw_get /\
  serve demo_fs (recv_buffer raw_get) = serve demo_fs raw_get.
Proof.
  apply (recv_buffer_reads_data demo_fs raw_get).
  apply Nat.ltb_lt. vm_compute. reflexivity.
Defined.

(** ** The response 200, as it is sent *)

Lemma ok_message_format (file : bytes) :
  ok_message file =
  response_format
    (mkResponse 200 (lit "OK") (Z.of_nat (length file)) (file ++ [NUL])).
Proof. reflexivity. Qed.

Lemma ok_message_file (file : bytes) :
  nul_free file ->
  ok_message file =
  lit "HTTP/1.1 200 OK" ++ CRLF
  ++ lit "Content-Type: text/html;charset=UTF-8" ++ CRLF
  ++ lit "Content-Length: " ++ Libc.print_zu (Z.of_nat (length file)) ++ CRLF
  ++ CRLF ++ file.
Proof.
  intros Hfree. unfold ok_message. now rewrite (c_str_app_nul file []).
Qed.

Lemma ok_message_length (file : bytes) :
  nul_free file -> (length file <= length (ok_message file))%nat.
Proof.
  intros Hfree. rewrite (ok_message_file file Hfree).
  rewrite !length_app. lia.
Qed.

(** A routed file that makes a message of [INT_MAX] bytes or more is not
    sent: the handler faults. *)
Lemma handleGetRequest_too_long (fs : filesystem) (request : HttpRequest)
    (route : RouteMapping) (file : bytes) :
  In route getRouteMappings ->
  c_str (path request) = c_str (rpath route) ->
  fs (c_str (rlink route)) = Some file ->
  Libc.INT_MAX <= Z.of_nat (length (ok_message file)) ->
  handleGetRequest fs request = Fault.
Proof.
  intros Hin Hpath Hfile Hlen. unfold handleGetRequest.
  rewrite (get_response_match fs request route Hin Hpath), Hfile.
  unfold HttpResponseToString. rewrite <- ok_message_format.
  destruct (Z.leb_spec (Z.of_nat (length (ok_message file)) + 1)
                       Libc.INT_MAX); [lia | reflexivity].
Qed.

Lemma long_file_length : Z.of_nat (length long_file) = 2147483561.
Proof. unfold long_file. rewrite repeat_length. now rewrite Z2Nat.id. Qed.

Lemma long_file_nul_free : nul_free long_file.
Proof.
  unfold long_file, nul_free. apply Forall_forall.
  intros c Hc. apply repeat_spec in Hc. subst c. discriminate.
Qed.

Lemma long_file_routed :
  long_fs (c_str (rlink index_route)) = Some long_file.
Proof.
  unfold long_fs.
  destruct (list_eq_dec ascii_dec (c_str (rlink index_route))
                        (lit "./public_html/index.html")) as [_|n];
    [reflexivity|].
  exfalso. apply n. vm_compute. reflexivity.
Qed.

Lemma long_file_message :
  Z.of_nat (length (ok_message long_file)) = Libc.INT_MAX.
Proof.
  rewrite (ok_message_file long_file long_file_nul_free).
  rewrite long_file_length.
  rewrite !length_app, !Nat2Z.inj_add, long_file_length.
  vm_compute. reflexivity.
Qed.

(** The routed file with a NUL byte is sent cut at that byte, and for the
    routed file that makes a message of [INT_MAX] bytes nothing is
    sent. *)
Lemma routed_file_not_sent :
  (binary_fs (c_str (rlink index_route)) = Some ["a"%char; NUL; "b"%char] /\
   c_str (path (request_of (lit "GET") (lit "/"))) = c_str (rpath index_route) /\
   handleGetRequest binary_fs (request_of (lit "GET") (lit "/"))
   = Ok (sending (lit "HTTP/1.1 200 OK" ++ CRLF
                  ++ lit "Content-Type: text/html;charset=UTF-8" ++ CRLF
                  ++ lit "Content-Length: 3" ++ CRLF ++ CRLF ++ lit "a")) /\
   lit "a" <> ["a"%char; NUL; "b"%char]) /\
  (long_fs (c_str (rlink index_route)) = Some long_file /\
   Z.of_nat (length (ok_message long_file)) = Libc.INT_MAX /\
   handleGetRequest long_fs (request_of (lit "GET") (lit "/")) = Fault /\
   sent (handleGetRequest long_fs (request_of (lit "GET") (lit "/"))) = []).
Proof.
  split.
  - split; [vm_compute; reflexivity|].
    split; [vm_compute; reflexivity|].
    split; [vm_compute; reflexivity | discriminate].
  - assert (Hfault :
      handleGetRequest long_fs (request_of (lit "GET") (lit "/")) = Fault).
    { apply (handleGetRequest_too_long long_fs _ index_route long_file).
      - left. reflexivity.
      - vm_compute. reflexivity.
      - exact long_file_routed.
      - rewrite long_file_message. apply Z.le_refl. }
    split; [exact long_file_routed|].
    split; [exact long_file_message|].
    split; [exact Hfault|]. now rewrite Hfault.
Qed.

(** C1, as the code has it: for a request whose path is the path of an
    entry of the configured route table, when the file of that entry can
    be read, holds no NUL byte, and makes a serialized response shorter
    than [INT_MAX] bytes, the dispatcher builds the response 200 [OK]
    whose content is the file and whose [content_length] is the size of
    the file, and gives it to [send] whole: the header with that size as
    [Content-Length], a blank line, and the file, byte for byte. *)
Theorem handleGetRequest_ok (fs : filesystem) (request : HttpRequest)
    (route : RouteMapping) (file : bytes) :
  In route getRouteMappings ->
  c_str (path request) = c_str (rpath route) ->
  fs (c_str (rlink route)) = Some file ->
  nul_free file ->
  Z.of_nat (length (ok_message file)) < Libc.INT_MAX ->
  get_response fs request
  = mkResponse 200 (lit "OK") (Z.of_nat (length file)) (file ++ [NUL]) /\
  handleGetRequest fs request = Ok (sending (ok_message file)) /\
  ok_message file
  = lit "HTTP/1.1 200 OK" ++ CRLF
    ++ lit "Content-Type: text/html;charset=UTF-8" ++ CRLF
    ++ lit "Content-Length: " ++ Libc.print_zu (Z.of_nat (length file))
    ++ CRLF ++ CRLF ++ file /\
  content_portion (ok_message file) = Some file /\
  reparsed_content_length (ok_message file) = Some (Z.of_nat (length file)).
Proof.
  intros Hin Hpath Hfile Hfree Hlen.
  pose proof (get_response_match fs request route Hin Hpath) as Hr.
  pose proof (get_log_match fs request route Hin Hpath) as Hl.
  unfold ReadFile_stderr in Hl. rewrite Hfile in Hr, Hl.
  pose proof (ok_message_length file Hfree) as Hle.
  assert (Hsize : Z.of_nat (length file) < 2 ^ 64).
  { unfold Libc.INT_MAX in Hlen. lia. }
  assert (Hplain : plain_status (c_str (lit "OK"))) by (split; reflexivity).
  split; [exact Hr|]. split; [|split; [|split]].
  - rewrite handleGetRequest_sending; rewrite Hr, <- ok_message_format;
      [|exact Hlen].
    now rewrite Hl.
  - now apply ok_message_file.
  - rewrite ok_message_format.
    now apply (content_portion_format _ file).
  - rewrite ok_message_format.
    now rewrite (reparsed_content_length_format _ file).
Qed.

Lemma handleGetRequest_ok_witness :
  get_response demo_fs (request_of (lit "GET") (lit "/"))
  = mkResponse 200 (lit "OK") (Z.of_nat (length index_html))
               (index_html ++ [NUL]) /\
  handleGetRequest demo_fs (request_of (lit "GET") (lit "/"))
  = Ok (sending (ok_message index_html)) /\
  ok_message index_html
  = lit "HTTP/1.1 200 OK" ++ CRLF
    ++ lit "Content-Type: text/html;charset=UTF-8" ++ CRLF
    ++ lit "Content-Length: " ++ Libc.print_zu (Z.of_nat (length index_html))
    ++ CRLF ++ CRLF ++ index_html /\
  content_portion (ok_message index_html) = Some index_html /\
  reparsed_content_length (ok_message index_html)
  = Some (Z.of_nat (length index_html)).
Proof.
  apply (handleGetRequest_ok demo_fs (request_of (lit "GET") (lit "/"))
           index_route index_html).
  - left. reflexivity.
  - vm_compute. reflexivity.
  - vm_compute. reflexivity.
  - apply nul_freeb_spec. reflexivity.
  - vm_compute. reflexivity.
Defined.
